(** * Agentic RAG engine: a shallow embedding of [retrieval/agentic_rag.py]

    The engine of [open_webui/retrieval/agentic_rag.py] is a bounded retry
    loop around five stages (analyse, gather, rerank, generate, validate).
    Every stage talks to a collaborator that lives outside the repository:
    the language model gateway, the tool providers, the document store and
    the scoring function.  The embedding keeps the code's control flow and
    replaces each collaborator by an oracle that may answer or raise; the
    oracle sees the history of calls made so far, so that it may answer the
    same request differently at different times.

    Python values that come back from JSON are kept dynamically typed
    ([pyval]); text is 8-bit ([string]), so [lower], [upper] and [strip] are
    the ASCII ones; scores are rationals ([Q]), which order finite floats as
    Python does (a NaN score is outside the model). *)

From Stdlib Require Import List String Ascii ZArith QArith Bool Lia Permutation Sorted.
Import ListNotations.

Set Warnings "-register-all".

Local Open Scope string_scope.
Local Open Scope Z_scope.

(** ** Text helpers (the [str] methods the engine calls) *)

Definition dq : string := String (ascii_of_nat 34) EmptyString.
Definition nl : string := String (ascii_of_nat 10) EmptyString.

Definition is_upper (c : ascii) : bool :=
  let n := nat_of_ascii c in ((65 <=? n) && (n <=? 90))%nat.

Definition is_lower (c : ascii) : bool :=
  let n := nat_of_ascii c in ((97 <=? n) && (n <=? 122))%nat.

Definition lower_ascii (c : ascii) : ascii :=
  if is_upper c then ascii_of_nat (nat_of_ascii c + 32) else c.

Definition upper_ascii (c : ascii) : ascii :=
  if is_lower c then ascii_of_nat (nat_of_ascii c - 32) else c.

(** [s.lower()] *)
Fixpoint lower (s : string) : string :=
  match s with
  | EmptyString => EmptyString
  | String c s' => String (lower_ascii c) (lower s')
  end.

(** [s.upper()] *)
Fixpoint upper (s : string) : string :=
  match s with
  | EmptyString => EmptyString
  | String c s' => String (upper_ascii c) (upper s')
  end.

(** [sub in s] *)
Fixpoint contains (sub s : string) : bool :=
  prefix sub s ||
  match s with
  | EmptyString => false
  | String _ s' => contains sub s'
  end.

Fixpoint find_from (sub s : string) (i : Z) : Z :=
  if prefix sub s then i
  else match s with
       | EmptyString => -1
       | String _ s' => find_from sub s' (i + 1)
       end.

(** [s.find(sub)]: the lowest index of an occurrence, or -1. *)
Definition find (s sub : string) : Z := find_from sub s 0.

Fixpoint rfind_from (sub s : string) (i best : Z) : Z :=
  let best' := if prefix sub s then i else best in
  match s with
  | EmptyString => best'
  | String _ s' => rfind_from sub s' (i + 1) best'
  end.

(** [s.rfind(sub)]: the highest index of an occurrence, or -1. *)
Definition rfind (s sub : string) : Z := rfind_from sub s 0 (-1).

(** [s[a:b]] for indices [a], [b] that are not negative, which is the only
    way the engine slices a text. *)
Definition slice (s : string) (a b : Z) : string :=
  substring (Z.to_nat a) (Z.to_nat (b - a)) s.

(** Whitespace as [str.strip()] sees it in the ASCII range. *)
Definition is_space (c : ascii) : bool :=
  let n := nat_of_ascii c in
  (((9 <=? n) && (n <=? 13)) || ((28 <=? n) && (n <=? 32)))%nat.

Fixpoint lstrip (s : string) : string :=
  match s with
  | EmptyString => EmptyString
  | String c s' => if is_space c then lstrip s' else s
  end.

Definition string_rev (s : string) : string :=
  string_of_list_ascii (rev (list_ascii_of_string s)).

(** [s.strip()] *)
Definition strip (s : string) : string :=
  string_rev (lstrip (string_rev (lstrip s))).

(** [sep.join(parts)] *)
Definition join (sep : string) (parts : list string) : string :=
  String.concat sep parts.

(** [l[-n:]] for a positive [n]. *)
Definition lastn {A : Type} (n : nat) (l : list A) : list A :=
  skipn (List.length l - n) l.

(** [l[:k]] for any integer [k]. *)
Definition py_take {A : Type} (k : Z) (l : list A) : list A :=
  if 0 <=? k then firstn (Z.to_nat k) l
  else firstn (List.length l - Z.to_nat (- k)) l.

(** ** Python values *)

Inductive pyval : Type :=
| PNone
| PBool (b : bool)
| PInt (z : Z)
| PFloat (q : Q)
| PStr (s : string)
| PList (l : list pyval)
| PDict (d : list (string * pyval)).

(** Truth value of an object, as [if], [not], [and] and [or] take it. *)
Definition truthy (v : pyval) : bool :=
  match v with
  | PNone => false
  | PBool b => b
  | PInt z => negb (z =? 0)
  | PFloat q => negb (Qeq_bool q 0)
  | PStr s => negb (String.eqb s EmptyString)
  | PList l => match l with [] => false | _ => true end
  | PDict d => match d with [] => false | _ => true end
  end.

Definition py_and (a b : pyval) : pyval := if truthy a then b else a.
Definition py_or (a b : pyval) : pyval := if truthy a then a else b.

Definition type_name (v : pyval) : string :=
  match v with
  | PNone => "NoneType"
  | PBool _ => "bool"
  | PInt _ => "int"
  | PFloat _ => "float"
  | PStr _ => "str"
  | PList _ => "list"
  | PDict _ => "dict"
  end.

Fixpoint assoc_get {V : Type} (k : string) (d : list (string * V)) : option V :=
  match d with
  | [] => None
  | (k', v) :: d' => if String.eqb k k' then Some v else assoc_get k d'
  end.

Definition num_of (v : pyval) : option Q :=
  match v with
  | PBool b => Some (if b then 1%Q else 0%Q)
  | PInt z => Some (inject_Z z)
  | PFloat q => Some q
  | _ => None
  end.

(** [a == b] on the values above: numbers by value, texts and lists
    structurally, dicts as maps. *)
Fixpoint py_eqb (a b : pyval) {struct a} : bool :=
  match a, b with
  | PNone, PNone => true
  | PStr s, PStr t => String.eqb s t
  | PList l, PList m =>
      (fix go (l m : list pyval) {struct l} : bool :=
         match l, m with
         | [], [] => true
         | x :: l', y :: m' => py_eqb x y && go l' m'
         | _, _ => false
         end) l m
  | PDict d, PDict e =>
      (List.length d =? List.length e)%nat &&
      (fix go (d : list (string * pyval)) {struct d} : bool :=
         match d with
         | [] => true
         | (k, v) :: d' =>
             match assoc_get k e with
             | Some w => py_eqb v w
             | None => false
             end && go d'
         end) d
  | (PBool _ | PInt _ | PFloat _), (PBool _ | PInt _ | PFloat _) =>
      match num_of a, num_of b with
      | Some x, Some y => Qeq_bool x y
      | _, _ => false
      end
  | _, _ => false
  end.

(** ** Exceptions and outcomes *)

Inductive exn_class : Type :=
| JSONDecodeError | AttributeError | IndexError | KeyError | TypeError
| ValueError | OtherError.

Record exn : Type := mk_exn { exn_cls : exn_class; exn_msg : string }.

Definition is_json_decode_error (e : exn) : bool :=
  match exn_cls e with JSONDecodeError => true | _ => false end.

(** What running a piece of code gives: a value or an exception. *)
Inductive outcome (A : Type) : Type :=
| Ok (a : A)
| Raise (e : exn).

Arguments Ok {A} a.
Arguments Raise {A} e.

Definition obind {A B : Type} (o : outcome A) (k : A -> outcome B) : outcome B :=
  match o with
  | Ok a => k a
  | Raise e => Raise e
  end.

Definition no_attribute (v : pyval) (attr : string) : exn :=
  mk_exn AttributeError
    ("'" ++ type_name v ++ "' object has no attribute '" ++ attr ++ "'").

(** [obj.get(key, default)]: only a dict has the method. *)
Definition py_get (obj : pyval) (key : string) (default : pyval) : outcome pyval :=
  match obj with
  | PDict d => Ok (match assoc_get key d with Some v => v | None => default end)
  | _ => Raise (no_attribute obj "get")
  end.

(** [obj[0]] *)
Definition py_index0 (obj : pyval) : outcome pyval :=
  match obj with
  | PList (x :: _) => Ok x
  | PList [] => Raise (mk_exn IndexError "list index out of range")
  | PStr (String c _) => Ok (PStr (String c EmptyString))
  | PStr EmptyString => Raise (mk_exn IndexError "string index out of range")
  | PDict _ => Raise (mk_exn KeyError "0")
  | _ => Raise (mk_exn TypeError
                  ("'" ++ type_name obj ++ "' object is not subscriptable"))
  end.

(** The receiver of a [str] method: anything else has no such attribute. *)
Definition as_str (v : pyval) (method : string) : outcome string :=
  match v with
  | PStr s => Ok s
  | _ => Raise (no_attribute v method)
  end.

(** [for x in obj]: the items the loop visits. *)
Definition py_iter (obj : pyval) : outcome (list pyval) :=
  match obj with
  | PList l => Ok l
  | PDict d => Ok (map (fun kv => PStr (fst kv)) d)
  | PStr s => Ok (map (fun c => PStr (String c EmptyString)) (list_ascii_of_string s))
  | _ => Raise (mk_exn TypeError
                  ("'" ++ type_name obj ++ "' object is not iterable"))
  end.

(** [str(v)] inside an f-string: a text formats as itself; how the other
    values print is left to the interpreter ([py_str]). *)
Definition fmt (py_str : pyval -> string) (v : pyval) : string :=
  match v with
  | PStr s => s
  | _ => py_str v
  end.

(** ** Results of the analysis and validation stages *)

Record QueryAnalysisResult : Type := mk_QueryAnalysisResult {
  needs_additional_data : pyval;
  rewritten_query : pyval;
  qa_reasoning : pyval;
  qa_confidence : pyval
}.

Record AnswerValidationResult : Type := mk_AnswerValidationResult {
  is_correct : pyval;
  is_relevant : pyval;
  av_reasoning : pyval;
  av_confidence : pyval;
  is_valid : pyval
}.

(** [AnswerValidationResult.__init__]: the answer is valid if both correct
    and relevant. *)
Definition AnswerValidationResult_init
    (is_correct is_relevant reasoning confidence : pyval) : AnswerValidationResult :=
  mk_AnswerValidationResult is_correct is_relevant reasoning confidence
    (py_and is_correct is_relevant).

(** ** Retrieved sources

    A source is a dict; the engine reads and writes its ["document"] and
    ["metadata"] keys only, either of which may be missing. *)
Record Source : Type := mk_Source {
  document : option (list string);
  metadata : option (list pyval);
  other_keys : list (string * pyval)
}.

(** ** Calls to the collaborators *)

(** A chat message: a dict from text to text ([role], [content]). *)
Definition message : Type := list (string * string).

Definition msg_get (msg : message) (key default : string) : string :=
  match assoc_get key msg with Some v => v | None => default end.

Inductive event : Type :=
| EvLLM (model_id : string) (messages : list message)
| EvListToolSpecs (server_id : string)
| EvCallTool (server_id tool_name arguments : pyval)
| EvRerank (sentences : list (pyval * string))
| EvQueryCollection (hybrid : bool) (collection_names : list string)
    (queries : list pyval) (k : Z).

Definition trace : Type := list event.

Definition is_llm_call (ev : event) : bool :=
  match ev with EvLLM _ _ => true | _ => false end.

(** Code that makes calls: it extends the history and returns or raises. *)
Definition M (A : Type) : Type := trace -> outcome A * trace.

Definition ret {A : Type} (a : A) : M A := fun tr => (Ok a, tr).

Definition lift {A : Type} (o : outcome A) : M A := fun tr => (o, tr).

Definition bind {A B : Type} (m : M A) (k : A -> M B) : M B :=
  fun tr =>
    match m tr with
    | (Ok a, tr') => k a tr'
    | (Raise e, tr') => (Raise e, tr')
    end.

Notation "x <- m ;; k" := (bind m (fun x => k))
  (at level 61, m at next level, right associativity).

(** [try: body / except Exception as e: handler] *)
Definition try_except {A : Type} (body : M A) (handler : exn -> M A) : M A :=
  fun tr =>
    match body tr with
    | (Raise e, tr') => handler e tr'
    | r => r
    end.

(** [try: body / except json.JSONDecodeError: handler] *)
Definition try_except_json {A : Type} (body : M A) (handler : M A) : M A :=
  fun tr =>
    match body tr with
    | (Raise e, tr') => if is_json_decode_error e then handler tr' else (Raise e, tr')
    | r => r
    end.

(** One call to a collaborator: it answers from the history before the
    call, and the call is recorded. *)
Definition call {A : Type} (ev : event) (oracle : trace -> outcome A) : M A :=
  fun tr => (oracle tr, (tr ++ [ev])%list).

(** A tool provider, as the engine uses it. *)
Record McpClient : Type := mk_McpClient {
  list_tool_specs : trace -> outcome pyval;
  call_tool : trace -> pyval -> pyval -> outcome pyval
}.

(** What the engine imports or reaches through [self.request]: the
    functions of [open_webui.utils.misc] and [open_webui.retrieval.utils],
    the application's configuration, and the [json] and [str] of the
    interpreter. *)
Record Env : Type := mk_Env {
  generate_chat_completion : trace -> string -> list message -> outcome pyval;
  get_task_model_id : option string -> outcome string;
  config_MODEL : option string;
  ENABLE_RAG_HYBRID_SEARCH : bool;
  query_collection_with_hybrid_search :
    trace -> list string -> list pyval -> Z -> Z -> Q -> outcome (list Source);
  query_collection : trace -> list string -> list pyval -> Z -> outcome (list Source);
  json_loads : string -> option pyval;
  json_dumps : pyval -> string;
  py_str : pyval -> string
}.

(** The fields of [AgenticRAGEngine] that the methods read ([request],
    [user] and [embedding_function] are only handed on to the functions of
    [Env]). *)
Record Engine : Type := mk_Engine {
  reranking_function : option (trace -> list (pyval * string) -> outcome (list Q));
  mcp_clients : list (string * McpClient);
  max_iterations : Z
}.

(** [AgenticRAGEngine.__init__] *)
Definition AgenticRAGEngine_init
    (reranking_function : option (trace -> list (pyval * string) -> outcome (list Q)))
    (mcp_clients : option (list (string * McpClient)))
    (max_iterations : option Z) : Engine :=
  mk_Engine reranking_function
    (match mcp_clients with Some (c :: l) => c :: l | _ => [] end)
    (match max_iterations with Some n => n | None => 3 end).

(** ** Reranking *)

Definition fst3 {A B C : Type} (t : A * B * C) : A := fst (fst t).
Definition snd3 {A B C : Type} (t : A * B * C) : B := snd (fst t).
Definition thd3 {A B C : Type} (t : A * B * C) : C := snd t.

(** [zip(a, b, c)]: as long as the shortest of the three. *)
Fixpoint zip3 {A B C : Type} (a : list A) (b : list B) (c : list C) : list (A * B * C) :=
  match a, b, c with
  | x :: a', y :: b', z :: c' => (x, y, z) :: zip3 a' b' c'
  | _, _, _ => []
  end.

Section Sorting.
Context {A : Type} (key : A -> Q).

(** [x] goes in front of the first item whose key is not above its own,
    so that items with equal keys keep the order they came in. *)
Fixpoint insert_desc (x : A) (l : list A) : list A :=
  match l with
  | [] => [x]
  | y :: l' => if Qle_bool (key y) (key x) then x :: y :: l'
               else y :: insert_desc x l'
  end.

(** [sorted(l, key=key, reverse=True)]: descending and stable. *)
Definition sort_desc (l : list A) : list A := fold_right insert_desc [] l.
End Sorting.

(** [max(l)] *)
Definition py_max (l : list Q) : outcome Q :=
  match l with
  | [] => Raise (mk_exn ValueError "max() arg is an empty sequence")
  | x :: l' => Ok (fold_left (fun m y => if Qle_bool y m then m else y) l' x)
  end.

Definition get_metadata (result : Source) : list pyval :=
  match metadata result with Some m => m | None => [] end.

(** The (query, document) pairs sent to the scoring function. *)
Definition sentences_of (search_results : list Source) (query : pyval)
  : list (pyval * string) :=
  flat_map (fun result =>
              match document result with
              | Some docs => map (fun doc_text => (query, doc_text)) docs
              | None => []
              end) search_results.

(** The scores of one source's documents, read from position [idx] on; a
    document past the end of the scores gets 0.0 and leaves [idx] alone. *)
Fixpoint take_scores (docs : list string) (reranked_scores : list Q) (idx : nat)
  : list Q * nat :=
  match docs with
  | [] => ([], idx)
  | _ :: docs' =>
      if (idx <? List.length reranked_scores)%nat then
        let (rest, idx') := take_scores docs' reranked_scores (S idx) in
        (nth idx reranked_scores 0%Q :: rest, idx')
      else
        let (rest, idx') := take_scores docs' reranked_scores idx in
        (0%Q :: rest, idx')
  end.

(** One source after its documents were sorted by score. *)
Definition reorder_source (result : Source) (docs : list string) (doc_scores : list Q)
  : Source :=
  match doc_scores with
  | [] => result
  | _ =>
      let sorted_pairs := sort_desc thd3 (zip3 docs (get_metadata result) doc_scores) in
      mk_Source (Some (map fst3 sorted_pairs))
                (match metadata result with
                 | Some _ => Some (map snd3 sorted_pairs)
                 | None => None
                 end)
                (other_keys result)
  end.

(** Applying the scores to the results, source by source. *)
Fixpoint apply_scores (search_results : list Source) (reranked_scores : list Q)
    (idx : nat) : list Source :=
  match search_results with
  | [] => []
  | result :: rest =>
      match document result with
      | Some docs =>
          let (doc_scores, idx') := take_scores docs reranked_scores idx in
          reorder_source result docs doc_scores :: apply_scores rest reranked_scores idx'
      | None => result :: apply_scores rest reranked_scores idx
      end
  end.

(** The key of the final [search_results.sort]: the maximum over the third
    components of the source's triples, where the third list is
    [[0.0] * len(documents)]. *)
Definition source_sort_key (r : Source) : outcome Q :=
  match document r with
  | Some (d :: docs) =>
      py_max (map thd3
                (sort_desc thd3
                   (zip3 (d :: docs) (get_metadata r)
                         (repeat 0%Q (List.length (d :: docs))))))
  | _ => Ok 0%Q
  end.

Fixpoint keys_of (l : list Source) : outcome (list (Q * Source)) :=
  match l with
  | [] => Ok []
  | r :: l' =>
      obind (source_sort_key r) (fun k =>
      obind (keys_of l') (fun ks => Ok ((k, r) :: ks)))
  end.

(** [search_results.sort(key=..., reverse=True)]: the keys are computed
    first, and a key that raises leaves the list as it was. *)
Definition sort_sources (search_results : list Source) : outcome (list Source) :=
  obind (keys_of search_results) (fun keyed => Ok (map snd (sort_desc fst keyed))).

(** ** The engine's methods *)

(** A word between double quotes, for the prompts. *)
Definition quoted (s : string) : string := dq ++ s ++ dq.

Definition analysis_system_prompt : string :=
  "You are a query analysis assistant. Your task is to:
1. Analyze the user's query to determine if additional data/documentation is needed to answer it
2. Optionally rewrite the query to improve retrieval if needed
3. Provide reasoning for your decision

Respond in JSON format:
{
    " ++ quoted "needs_additional_data" ++ ": true/false,
    " ++ quoted "rewritten_query" ++ ": " ++ quoted "improved query or null" ++ ",
    " ++ quoted "reasoning" ++ ": " ++ quoted "explanation" ++ ",
    " ++ quoted "confidence" ++ ": 0.0-1.0
}".

Definition tools_system_prompt (available_tools_json : string) : string :=
  "You are an AI agent that can interact with MCP (Model Context Protocol) servers.
Your task is to determine which tools to use to gather information for answering the user's query.

Available tools:
" ++ available_tools_json ++ "

Respond in JSON format:
{
    " ++ quoted "tools_to_use" ++ ": [
        {
            " ++ quoted "server_id" ++ ": " ++ quoted "server_id" ++ ",
            " ++ quoted "tool_name" ++ ": " ++ quoted "tool_name" ++ ",
            " ++ quoted "arguments" ++ ": {" ++ quoted "arg1" ++ ": " ++ quoted "value1" ++ "}
        }
    ],
    " ++ quoted "reasoning" ++ ": " ++ quoted "explanation" ++ "
}".

Definition answer_system_prompt : string :=
  "You are a helpful assistant. Answer the user's question based on the provided context.
If the context doesn't contain enough information to answer the question, say so.
Cite sources when possible.".

Definition validation_system_prompt : string :=
  "You are an answer validation assistant. Your task is to evaluate:
1. Is the answer correct (factually accurate and complete)?
2. Is the answer relevant to the query?

Respond in JSON format:
{
    " ++ quoted "is_correct" ++ ": true/false,
    " ++ quoted "is_relevant" ++ ": true/false,
    " ++ quoted "reasoning" ++ ": " ++ quoted "explanation" ++ ",
    " ++ quoted "confidence" ++ ": 0.0-1.0
}".

Definition rewrite_system_prompt : string :=
  "You are a query rewriting assistant. Your task is to rewrite the user's query
to improve retrieval and answer quality based on validation feedback.

Respond with only the rewritten query, no additional text.".

Definition fallback_answer : string := "Unable to generate a satisfactory answer.".

(** [response.get('choices', [{}])[0].get('message', {}).get('content', '')]:
    the text of the first choice, with a default at each step. *)
Definition response_content (response : pyval) : outcome pyval :=
  obind (py_get response "choices" (PList [PDict []])) (fun choices =>
  obind (py_index0 choices) (fun choice =>
  obind (py_get choice "message" (PDict [])) (fun msg =>
  py_get msg "content" (PStr EmptyString)))).

(** [any(word in text for word in words)] *)
Definition any_word_in (words : list string) (text : string) : bool :=
  existsb (fun word => contains word text) words.

(** [_parse_analysis_from_text]: the fallback parser of the analysis. *)
Definition _parse_analysis_from_text (text : pyval) : outcome pyval :=
  obind (as_str text "lower") (fun t =>
  let text_lower := lower t in
  let needs_data := any_word_in ["need"; "require"; "yes"; "true"] text_lower in
  Ok (PDict [("needs_additional_data", PBool needs_data);
             ("rewritten_query", PNone);
             ("reasoning", text);
             ("confidence", PFloat (6 # 10))])).

(** [_parse_validation_from_text]: the fallback parser of the validation. *)
Definition _parse_validation_from_text (text : pyval) : outcome pyval :=
  obind (as_str text "lower") (fun t =>
  let text_lower := lower t in
  let is_correct :=
    negb (any_word_in ["incorrect"; "wrong"; "false"; "no"] text_lower) in
  let is_relevant :=
    negb (any_word_in ["irrelevant"; "not relevant"; "no"] text_lower) in
  Ok (PDict [("is_correct", PBool is_correct);
             ("is_relevant", PBool is_relevant);
             ("reasoning", text);
             ("confidence", PFloat (6 # 10))])).

(** The result object that [validate_answer] builds from the parsed dict. *)
Definition validation_of_result (result : pyval) : outcome AnswerValidationResult :=
  obind (py_get result "is_correct" (PBool true)) (fun c =>
  obind (py_get result "is_relevant" (PBool true)) (fun r =>
  obind (py_get result "reasoning" (PStr EmptyString)) (fun why =>
  obind (py_get result "confidence" (PFloat (8 # 10))) (fun conf =>
  Ok (AnswerValidationResult_init c r why conf))))).

(** [f"{ROLE}: {content}"] over the messages of a history window. *)
Definition history_lines (window : list message) : string :=
  join nl (map (fun msg =>
                  upper (msg_get msg "role" "user") ++ ": "
                  ++ msg_get msg "content" EmptyString) window).

(** The items an MCP result contributes to the context, when it is a list. *)
Fixpoint mcp_items (py_str : pyval -> string) (items : list pyval) (mcp_context : string)
  : string :=
  match items with
  | [] => mcp_context
  | item :: rest =>
      mcp_items py_str rest
        (match item with
         | PDict d =>
             match assoc_get "text" d with
             | Some t => mcp_context ++ "- " ++ fmt py_str t ++ nl
             | None => mcp_context
             end
         | PStr s => mcp_context ++ "- " ++ s ++ nl
         | _ => mcp_context
         end)
  end.

(** A key of the provider registry looked up by a value of the plan: a text
    may be a key, a list or dict cannot be hashed, nothing else is a key. *)
Definition lookup_client (server_id : pyval) (clients : list (string * McpClient))
  : outcome (option McpClient) :=
  match server_id with
  | PStr s => Ok (assoc_get s clients)
  | PList _ | PDict _ =>
      Raise (mk_exn TypeError ("unhashable type: '" ++ type_name server_id ++ "'"))
  | _ => Ok None
  end.

(** The inner loop of the tool listing: the specs appended so far stay in
    [available_tools] when a spec raises. *)
Fixpoint collect_tool_specs (server_id : string) (tool_specs : list pyval)
    (available_tools : list pyval) : list pyval :=
  match tool_specs with
  | [] => available_tools
  | tool_spec :: rest =>
      match py_get tool_spec "name" PNone,
            py_get tool_spec "description" (PStr EmptyString),
            py_get tool_spec "parameters" (PDict []) with
      | Ok name, Ok description, Ok parameters =>
          collect_tool_specs server_id rest
            (available_tools ++
             [PDict [("server_id", PStr server_id);
                     ("tool_name", name);
                     ("description", description);
                     ("parameters", parameters)]])%list
      | _, _, _ => available_tools
      end
  end.

(** The listing loop over the providers; a provider that raises is skipped. *)
Fixpoint list_available_tools (clients : list (string * McpClient))
    (available_tools : list pyval) : M (list pyval) :=
  match clients with
  | [] => ret available_tools
  | (server_id, client) :: rest =>
      fun tr =>
        let tr' := (tr ++ [EvListToolSpecs server_id])%list in
        match obind (list_tool_specs client tr) py_iter with
        | Ok tool_specs =>
            list_available_tools rest
              (collect_tool_specs server_id tool_specs available_tools) tr'
        | Raise _ => list_available_tools rest available_tools tr'
        end
  end.

(** The state of one pass through the stages, kept for the properties below:
    the working query after the analysis, what was gathered, the generated
    answer and the verdict on it. *)
Record AttemptOutcome : Type := mk_AttemptOutcome {
  att_query : pyval;
  att_mcp_results : list pyval;
  att_sources : list Source;
  att_answer : pyval;
  att_validation : AnswerValidationResult
}.

(** The dict that [process] returns. *)
Record ProcessResult : Type := mk_ProcessResult {
  answer : pyval;
  sources : list Source;
  mcp_results : list pyval;
  iterations : Z;
  final_query : pyval
}.

(** The local variables of [process] that live across iterations;
    [ls_mcp_results] is [None] while the name is not bound, and
    [ls_attempts] records the passes made so far (it is not a variable of
    the code). *)
Record LoopState : Type := mk_LoopState {
  ls_current_query : pyval;
  ls_iteration : Z;
  ls_best_answer : pyval;
  ls_best_sources : list Source;
  ls_mcp_results : option (list pyval);
  ls_attempts : list AttemptOutcome
}.

Definition mk_msg (role content : string) : message :=
  [("role", role); ("content", content)].

Section EngineMethods.
Variable E : Env.
Variable self : Engine.

Let str_of : pyval -> string := fmt (py_str E).

Definition loads (text : string) : outcome pyval :=
  match json_loads E text with
  | Some v => Ok v
  | None => Raise (mk_exn JSONDecodeError "Expecting value")
  end.

Definition _get_task_model_id : outcome string :=
  get_task_model_id E (config_MODEL E).

Definition _call_llm (model_id : string) (messages : list message) : M pyval :=
  call (EvLLM model_id messages)
       (fun tr => generate_chat_completion E tr model_id messages).

Definition with_history (n : nat) (chat_history : list message) (user_message : string)
  : string :=
  match chat_history with
  | [] => user_message
  | _ => "Recent conversation:" ++ nl ++ history_lines (lastn n chat_history)
         ++ nl ++ nl ++ user_message
  end.

(** Step 1: analyse the query. *)
Definition analyze_query (query : pyval) (chat_history : list message)
  : M QueryAnalysisResult :=
  try_except
    (task_model_id <- lift _get_task_model_id ;;
     let user_message := with_history 3 chat_history ("Query: " ++ str_of query) in
     let messages := [mk_msg "system" analysis_system_prompt;
                      mk_msg "user" user_message] in
     response <- _call_llm task_model_id messages ;;
     content <- lift (response_content response) ;;
     result <- try_except_json
                 (text <- lift (as_str content "find") ;;
                  let bracket_start := find text "{" in
                  let bracket_end := rfind text "}" + 1 in
                  if negb (bracket_start =? -1) && negb (bracket_end =? -1)
                  then lift (loads (slice text bracket_start bracket_end))
                  else lift (_parse_analysis_from_text content))
                 (lift (_parse_analysis_from_text content)) ;;
     needs <- lift (py_get result "needs_additional_data" (PBool true)) ;;
     rewritten <- lift (py_get result "rewritten_query" PNone) ;;
     reasoning <- lift (py_get result "reasoning" (PStr EmptyString)) ;;
     confidence <- lift (py_get result "confidence" (PFloat (8 # 10))) ;;
     ret (mk_QueryAnalysisResult needs (py_or rewritten query) reasoning confidence))
    (fun e =>
       ret (mk_QueryAnalysisResult (PBool true) query
              (PStr ("Error during analysis: " ++ exn_msg e)) (PFloat (5 # 10)))).

(** The loop that executes the planned tools.  It returns [results] as
    they stand when the plan ends or when a plan entry raises: the
    handler of the enclosing [try] only logs, and [results] is returned. *)
Fixpoint execute_tools (query : pyval) (clients : list (string * McpClient))
    (tools_to_use : list pyval) (results : list pyval) : M (list pyval) :=
  match tools_to_use with
  | [] => ret results
  | tool_info :: rest =>
      match py_get tool_info "server_id" PNone,
            py_get tool_info "tool_name" PNone,
            py_get tool_info "arguments" (PDict []) with
      | Ok server_id, Ok tool_name, Ok arguments =>
          match lookup_client server_id clients with
          | Ok (Some client) =>
              fun tr =>
                let tr' := (tr ++ [EvCallTool server_id tool_name arguments])%list in
                match call_tool client tr tool_name arguments with
                | Ok result =>
                    execute_tools query clients rest
                      (results ++ [PDict [("server_id", server_id);
                                          ("tool_name", tool_name);
                                          ("result", result);
                                          ("query", query)]])%list tr'
                | Raise _ => execute_tools query clients rest results tr'
                end
          | Ok None => execute_tools query clients rest results
          | Raise _ => ret results
          end
      | _, _, _ => ret results
      end
  end.

(** Step 2: the agent picks tools of the MCP servers and calls them. *)
Definition interact_with_mcp_servers (query : pyval)
    (mcp_clients : list (string * McpClient)) : M (list pyval) :=
  match mcp_clients with
  | [] => ret []
  | _ =>
      try_except
        (task_model_id <- lift _get_task_model_id ;;
         available_tools <- list_available_tools mcp_clients [] ;;
         match available_tools with
         | [] => ret []
         | _ =>
             let system_prompt :=
               tools_system_prompt (json_dumps E (PList available_tools)) in
             let messages := [mk_msg "system" system_prompt;
                              mk_msg "user" ("Query: " ++ str_of query)] in
             response <- _call_llm task_model_id messages ;;
             content <- lift (response_content response) ;;
             tool_selection <-
               try_except_json
                 (text <- lift (as_str content "find") ;;
                  let bracket_start := find text "{" in
                  let bracket_end := rfind text "}" + 1 in
                  if negb (bracket_start =? -1) && negb (bracket_end =? -1)
                  then parsed <- lift (loads (slice text bracket_start bracket_end)) ;;
                       ret (Some parsed)
                  else ret None)
                 (ret None) ;;
             match tool_selection with
             | None => ret []
             | Some selection =>
                 tools_to_use <- lift (py_get selection "tools_to_use" (PList [])) ;;
                 plan <- lift (py_iter tools_to_use) ;;
                 execute_tools query mcp_clients plan []
             end
         end)
        (fun _ => ret [])
  end.

(** Step 3: rerank the search results with the scoring function. *)
Definition rerank_search_results (search_results : list Source) (query : pyval)
  : M (list Source) :=
  match reranking_function self, search_results with
  | None, _ => ret search_results
  | _, [] => ret search_results
  | Some score, _ =>
      let sentences := sentences_of search_results query in
      match sentences with
      | [] => ret search_results
      | _ =>
          try_except
            (reranked_scores <- call (EvRerank sentences)
                                     (fun tr => score tr sentences) ;;
             let reordered := apply_scores search_results reranked_scores 0 in
             try_except (lift (sort_sources reordered)) (fun _ => ret reordered))
            (fun _ => ret search_results)
      end
  end.

(** The addendum built from the MCP results. *)
Fixpoint mcp_context_of (mcp_results : list pyval) (mcp_context : string)
  : outcome string :=
  match mcp_results with
  | [] => Ok mcp_context
  | mcp_result :: rest =>
      obind (py_get mcp_result "result" (PDict [])) (fun result_data =>
      mcp_context_of rest
        (match result_data with
         | PList items => mcp_items (py_str E) items mcp_context
         | PDict _ => mcp_context ++ "- " ++ json_dumps E result_data ++ nl
         | PStr s => mcp_context ++ "- " ++ s ++ nl
         | _ => mcp_context
         end))
  end.

(** Step 4: generate the answer from the context and the MCP results. *)
Definition generate_answer (query : pyval) (context : string)
    (chat_history : list message) (mcp_results : list pyval) : M pyval :=
  try_except
    (let context_parts :=
       if String.eqb context EmptyString then [] else [context] in
     context_parts <-
       match mcp_results with
       | [] => ret context_parts
       | _ =>
           mcp_context <-
             lift (mcp_context_of mcp_results
                     (nl ++ nl ++ "Additional information from external sources:" ++ nl)) ;;
           ret (context_parts ++ [mcp_context])%list
       end ;;
     let full_context := join nl context_parts in
     model_id <-
       match config_MODEL E with
       | Some m => if String.eqb m EmptyString then lift _get_task_model_id else ret m
       | None => lift _get_task_model_id
       end ;;
     let user_message :=
       "Context:" ++ nl ++ full_context ++ nl ++ nl ++ "Question: " ++ str_of query in
     let messages :=
       ([mk_msg "system" answer_system_prompt] ++ lastn 5 chat_history
        ++ [mk_msg "user" user_message])%list in
     response <- _call_llm model_id messages ;;
     lift (response_content response))
    (fun e => ret (PStr ("Error generating answer: " ++ exn_msg e))).

(** Step 5: judge the answer. *)
Definition validate_answer (query answer : pyval) (chat_history : list message)
  : M AnswerValidationResult :=
  try_except
    (task_model_id <- lift _get_task_model_id ;;
     let user_message :=
       with_history 2 chat_history
         ("Query: " ++ str_of query ++ nl ++ nl ++ "Answer: " ++ str_of answer) in
     let messages := [mk_msg "system" validation_system_prompt;
                      mk_msg "user" user_message] in
     response <- _call_llm task_model_id messages ;;
     content <- lift (response_content response) ;;
     result <- try_except_json
                 (text <- lift (as_str content "find") ;;
                  let bracket_start := find text "{" in
                  let bracket_end := rfind text "}" + 1 in
                  if negb (bracket_start =? -1) && negb (bracket_end =? -1)
                  then lift (loads (slice text bracket_start bracket_end))
                  else lift (_parse_validation_from_text content))
                 (lift (_parse_validation_from_text content)) ;;
     lift (validation_of_result result))
    (fun e =>
       ret (AnswerValidationResult_init (PBool true) (PBool true)
              (PStr ("Error during validation: " ++ exn_msg e)) (PFloat (5 # 10)))).

(** The query rewritten from the verdict on the answer. *)
Definition rewrite_query (original_query : string) (answer : pyval)
    (validation_result : AnswerValidationResult) (chat_history : list message)
  : M pyval :=
  try_except
    (task_model_id <- lift _get_task_model_id ;;
     let user_message :=
       "Original query: " ++ original_query ++ nl
       ++ "Generated answer: " ++ str_of answer ++ nl
       ++ "Validation: " ++ str_of (av_reasoning validation_result) ++ nl ++ nl
       ++ "Rewrite the query to get a better answer." in
     let messages := [mk_msg "system" rewrite_system_prompt;
                      mk_msg "user" user_message] in
     response <- _call_llm task_model_id messages ;;
     rewritten <- lift (response_content response) ;;
     if truthy rewritten
     then text <- lift (as_str rewritten "strip") ;; ret (PStr (strip text))
     else ret (PStr original_query))
    (fun _ => ret (PStr original_query)).

(** The context handed to the generator: at most two documents of each of
    the first [k_reranker] sources. *)
Definition build_context (sources : list Source) (k_reranker : Z) : string :=
  match sources with
  | [] => EmptyString
  | _ =>
      join (nl ++ nl)
        (flat_map (fun source =>
                     match document source with
                     | Some docs => firstn 2 docs
                     | None => []
                     end)
                  (py_take k_reranker sources))
  end.

(** One pass of the loop body of [process], from the analysis to the
    validation. *)
Definition attempt (collection_names : list string) (chat_history : list message)
    (k k_reranker : Z) (r : Q) (current_query : pyval) : M AttemptOutcome :=
  analysis <- analyze_query current_query chat_history ;;
  let current_query :=
    if truthy (rewritten_query analysis)
       && negb (py_eqb (rewritten_query analysis) current_query)
    then rewritten_query analysis else current_query in
  mcp_results <-
    (if truthy (needs_additional_data analysis)
        && match mcp_clients self with [] => false | _ => true end
     then interact_with_mcp_servers current_query (mcp_clients self)
     else ret []) ;;
  sources <-
    (if truthy (needs_additional_data analysis)
        && match collection_names with [] => false | _ => true end
     then
       try_except
         (if ENABLE_RAG_HYBRID_SEARCH E
          then call (EvQueryCollection true collection_names [current_query] k)
                    (fun tr => query_collection_with_hybrid_search E tr
                                 collection_names [current_query] k k_reranker r)
          else call (EvQueryCollection false collection_names [current_query] k)
                    (fun tr => query_collection E tr collection_names
                                 [current_query] k))
         (fun _ => ret [])
     else ret []) ;;
  sources <-
    (match sources, reranking_function self with
     | _ :: _, Some _ => rerank_search_results sources current_query
     | _, _ => ret sources
     end) ;;
  let context := build_context sources k_reranker in
  answer <- generate_answer current_query context chat_history mcp_results ;;
  validation <- validate_answer current_query answer chat_history ;;
  ret (mk_AttemptOutcome current_query mcp_results sources answer validation).

(** The [while iteration < self.max_iterations] loop of [process]; [fuel]
    bounds the number of passes, and [None] means it was used up. *)
Fixpoint process_loop (fuel : nat) (query : string) (collection_names : list string)
    (chat_history : list message) (k k_reranker : Z) (r : Q) (st : LoopState)
  : trace -> option (outcome LoopState * trace) :=
  fun tr =>
    if ls_iteration st <? max_iterations self then
      match fuel with
      | O => None
      | S fuel' =>
          let iteration := ls_iteration st + 1 in
          match attempt collection_names chat_history k k_reranker r
                        (ls_current_query st) tr with
          | (Raise e, tr') => Some (Raise e, tr')
          | (Ok a, tr') =>
              let attempts := (ls_attempts st ++ [a])%list in
              if truthy (is_valid (att_validation a)) then
                (* the answer is valid: keep it and leave the loop *)
                Some (Ok (mk_LoopState (att_query a) iteration (att_answer a)
                            (att_sources a) (Some (att_mcp_results a)) attempts),
                      tr')
              else if iteration <? max_iterations self then
                (* iterations left: rewrite the query from the original one *)
                match rewrite_query query (att_answer a) (att_validation a)
                                    chat_history tr' with
                | (Raise e, tr'') => Some (Raise e, tr'')
                | (Ok current_query, tr'') =>
                    process_loop fuel' query collection_names chat_history
                      k k_reranker r
                      (mk_LoopState current_query iteration (ls_best_answer st)
                         (ls_best_sources st) (Some (att_mcp_results a)) attempts)
                      tr''
                end
              else
                (* use the best answer we have *)
                process_loop fuel' query collection_names chat_history
                  k k_reranker r
                  (mk_LoopState (att_query a) iteration (att_answer a)
                     (att_sources a) (Some (att_mcp_results a)) attempts)
                  tr'
          end
      end
    else Some (Ok st, tr).

Definition initial_state (query : string) : LoopState :=
  mk_LoopState (PStr query) 0 PNone [] None [].

(** The dict returned after the loop. *)
Definition final_result (st : LoopState) : ProcessResult :=
  mk_ProcessResult
    (py_or (ls_best_answer st) (PStr fallback_answer))
    (ls_best_sources st)
    (match ls_mcp_results st with Some m => m | None => [] end)
    (ls_iteration st)
    (ls_current_query st).

(** [process] together with the passes it made. *)
Definition process_with_attempts (query : string) (collection_names : list string)
    (chat_history : list message) (k k_reranker : Z) (r : Q)
  : trace -> option (outcome (ProcessResult * list AttemptOutcome) * trace) :=
  fun tr =>
    match process_loop (Z.to_nat (max_iterations self)) query collection_names
                       chat_history k k_reranker r (initial_state query) tr with
    | Some (Ok st, tr') => Some (Ok (final_result st, ls_attempts st), tr')
    | Some (Raise e, tr') => Some (Raise e, tr')
    | None => None
    end.

(** [AgenticRAGEngine.process] *)
Definition process (query : string) (collection_names : list string)
    (chat_history : list message) (k k_reranker : Z) (r : Q)
  : trace -> option (outcome ProcessResult * trace) :=
  fun tr =>
    match process_with_attempts query collection_names chat_history
                                k k_reranker r tr with
    | Some (Ok (result, _), tr') => Some (Ok result, tr')
    | Some (Raise e, tr') => Some (Raise e, tr')
    | None => None
    end.

End EngineMethods.

(** ** Sample collaborators, used to run the engine on concrete inputs *)

(** A gateway response with one choice whose message has the given content. *)
Definition chat_response (content : string) : pyval :=
  PDict [("choices", PList [PDict [("message", PDict [("content", PStr content)])]])].

Definition is_call_to (model : string) (ev : event) : bool :=
  match ev with
  | EvLLM model_id _ => String.eqb model_id model
  | _ => false
  end.

(** A scoring function that returns the given scores, and one that fails. *)
Definition const_scores (scores : list Q)
  : trace -> list (pyval * string) -> outcome (list Q) :=
  fun _ _ => Ok scores.

Definition failing_scores : trace -> list (pyval * string) -> outcome (list Q) :=
  fun _ _ => Raise (mk_exn OtherError "scorer unavailable").

Definition scoring_engine (scores : list Q) : Engine :=
  AgenticRAGEngine_init (Some (const_scores scores)) None None.

Definition failing_scoring_engine : Engine :=
  AgenticRAGEngine_init (Some failing_scores) None None.

(** An environment whose task model always answers [no] (so that no answer
    is ever judged valid) and whose main model answers [draft] the first
    time and returns a response without choices afterwards. *)
Definition draft_then_empty_env : Env :=
  mk_Env
    (fun tr model_id _ =>
       if String.eqb model_id "main"
       then (if existsb (is_call_to "main") tr then Ok (PDict [])
             else Ok (chat_response "draft"))
       else Ok (chat_response "no"))
    (fun _ => Ok "task")
    (Some "main")
    false
    (fun _ _ _ _ _ _ => Ok [])
    (fun _ _ _ _ => Ok [])
    (fun _ => None)
    (fun _ => EmptyString)
    (fun _ => EmptyString).

(** An environment in which every model answers [no]. *)
Definition refusing_env : Env :=
  mk_Env
    (fun _ _ _ => Ok (chat_response "no"))
    (fun _ => Ok "task")
    None
    false
    (fun _ _ _ _ _ _ => Ok [])
    (fun _ _ _ _ => Ok [])
    (fun _ => None)
    (fun _ => EmptyString)
    (fun _ => EmptyString).

(** An environment whose gateway returns an empty list of choices. *)
Definition empty_choices_env : Env :=
  mk_Env
    (fun _ _ _ => Ok (PDict [("choices", PList [])]))
    (fun _ => Ok "task")
    None
    false
    (fun _ _ _ _ _ _ => Ok [])
    (fun _ _ _ _ => Ok [])
    (fun _ => None)
    (fun _ => EmptyString)
    (fun _ => EmptyString).

Definition engine_of_iterations (n : Z) : Engine :=
  AgenticRAGEngine_init None None (Some n).

(** A provider whose listing call fails. *)
Definition broken_client : McpClient :=
  mk_McpClient (fun _ => Raise (mk_exn OtherError "connection refused"))
               (fun _ _ _ => Ok PNone).

Definition source_of (docs : list string) (meta : list pyval) : Source :=
  mk_Source (Some docs) (Some meta) [].

(** An environment whose gateway and document store are down: every call
    to them raises. *)
Definition dead_gateway_env : Env :=
  mk_Env
    (fun _ _ _ => Raise (mk_exn OtherError "gateway down"))
    (fun _ => Ok "task")
    None
    false
    (fun _ _ _ _ _ _ => Raise (mk_exn OtherError "store down"))
    (fun _ _ _ _ => Raise (mk_exn OtherError "store down"))
    (fun _ => None)
    (fun _ => EmptyString)
    (fun _ => EmptyString).

(** A provider with one tool, [lookup], which answers with a text. *)
Definition lookup_client_sample : McpClient :=
  mk_McpClient
    (fun _ => Ok (PList [PDict [("name", PStr "lookup")]]))
    (fun _ _ _ => Ok (PStr "found")).

(** An environment whose gateway answers with a braced text and whose JSON
    decoder reads every text as the plan that calls [lookup] of provider
    [s1] and then a tool of the unregistered provider [s9]. *)
Definition planning_env : Env :=
  mk_Env
    (fun _ _ _ => Ok (chat_response "{}"))
    (fun _ => Ok "task")
    None
    false
    (fun _ _ _ _ _ _ => Ok [])
    (fun _ _ _ _ => Ok [])
    (fun _ =>
       Some (PDict [("tools_to_use",
                     PList [PDict [("server_id", PStr "s1"); ("tool_name", PStr "lookup")];
                            PDict [("server_id", PStr "s9"); ("tool_name", PStr "other")]])]))
    (fun _ => EmptyString)
    (fun _ => EmptyString).

(** An environment whose gateway answers every request with a free text. *)
Definition free_text_env (text : string) : Env :=
  mk_Env
    (fun _ _ _ => Ok (chat_response text))
    (fun _ => Ok "task")
    None
    false
    (fun _ _ _ _ _ _ => Ok [])
    (fun _ _ _ _ => Ok [])
    (fun _ => None)
    (fun _ => EmptyString)
    (fun _ => EmptyString).

(** An environment whose gateway answers with a text around a braced span
    and whose JSON decoder reads the span [{x}] as an analysis that asks
    for data and rewrites the query to [X]. *)
Definition decoding_env : Env :=
  mk_Env
    (fun _ _ _ => Ok (chat_response "Yes, more data. {x} Thanks."))
    (fun _ => Ok "task")
    None
    false
    (fun _ _ _ _ _ _ => Ok [])
    (fun _ _ _ _ => Ok [])
    (fun text =>
       if String.eqb text "{x}"
       then Some (PDict [("needs_additional_data", PBool true);
                         ("rewritten_query", PStr "X");
                         ("reasoning", PStr "r");
                         ("confidence", PFloat (9 # 10))])
       else None)
    (fun _ => EmptyString)
    (fun _ => EmptyString).

(** ** Reranking, with the sources as shared objects

    [rerank_search_results] assigns into the source dicts, and
    [search_results] holds references to them: the same dict may stand at
    several positions, and then every visit of the loop sorts the one dict
    again.  Here the dicts live in a store and the list holds their ids.
    [apply_scores] above describes the same loop for lists whose positions
    hold distinct dicts (see [rerank_in_place_of_distinct_sources]). *)

Definition store : Type := nat -> Source.

(** [store[id] = s] *)
Definition set_source (h : store) (id : nat) (s : Source) : store :=
  fun j => if Nat.eqb j id then s else h j.

(** The loop that applies the scores, assigning into the dicts. *)
Fixpoint apply_scores_in_place (h : store) (refs : list nat) (reranked_scores : list Q)
    (idx : nat) : store :=
  match refs with
  | [] => h
  | id :: rest =>
      let result := h id in
      match document result with
      | Some docs =>
          let (doc_scores, idx') := take_scores docs reranked_scores idx in
          apply_scores_in_place
            (set_source h id (reorder_source result docs doc_scores))
            rest reranked_scores idx'
      | None => apply_scores_in_place h rest reranked_scores idx
      end
  end.

Fixpoint keys_of_refs (h : store) (refs : list nat) : outcome (list (Q * nat)) :=
  match refs with
  | [] => Ok []
  | id :: l' =>
      obind (source_sort_key (h id)) (fun k =>
      obind (keys_of_refs h l') (fun ks => Ok ((k, id) :: ks)))
  end.

(** The final sort, on the list of references. *)
Definition sort_refs (h : store) (refs : list nat) : outcome (list nat) :=
  obind (keys_of_refs h refs) (fun keyed => Ok (map snd (sort_desc fst keyed))).

(** [rerank_search_results] on a list of references: it returns the list
    and leaves the dicts as the loop has made them. *)
Definition rerank_search_results_in_place (self : Engine) (h : store) (refs : list nat)
    (query : pyval) : trace -> outcome (list nat) * store * trace :=
  fun tr =>
    match reranking_function self, refs with
    | None, _ => (Ok refs, h, tr)
    | _, [] => (Ok refs, h, tr)
    | Some score, _ =>
        let sentences := sentences_of (map h refs) query in
        match sentences with
        | [] => (Ok refs, h, tr)
        | _ =>
            let tr' := (tr ++ [EvRerank sentences])%list in
            match score tr sentences with
            | Raise _ => (Ok refs, h, tr')
            | Ok reranked_scores =>
                let h' := apply_scores_in_place h refs reranked_scores 0 in
                match sort_refs h' refs with
                | Ok sorted => (Ok sorted, h', tr')
                | Raise _ => (Ok refs, h', tr')
                end
            end
        end
    end.

(** A store with one dict, of two documents. *)
Definition one_source_store : store :=
  fun _ => source_of ["a"; "b"] [PInt 0; PInt 1].

(** ** Vocabulary of the properties *)

(** Code that returns a value from every history (it never raises). *)
Definition always_ok {A : Type} (m : M A) : Prop :=
  forall tr, exists a tr', m tr = (Ok a, tr').

(** No pass of the list was judged valid. *)
Definition never_valid (atts : list AttemptOutcome) : Prop :=
  Forall (fun a => truthy (is_valid (att_validation a)) = false) atts.

(** What the loop of [process] has done when it stops in state [st'],
    having started in state [st]: nothing, when no iteration was left; or
    some passes judged invalid followed by a last pass, whose answer,
    sources, tool results and working query are the ones kept, and which
    was either judged valid or was the pass number [max_iterations]. *)
Definition loop_post (self : Engine) (st st' : LoopState) : Prop :=
  (max_iterations self <= ls_iteration st /\ st' = st)
  \/ (ls_iteration st < max_iterations self
      /\ exists pre a,
           ls_attempts st' = (ls_attempts st ++ pre ++ [a])%list
           /\ never_valid pre
           /\ ls_iteration st' = ls_iteration st + Z.of_nat (List.length (pre ++ [a])%list)
           /\ ls_iteration st' <= max_iterations self
           /\ ls_best_answer st' = att_answer a
           /\ ls_best_sources st' = att_sources a
           /\ ls_current_query st' = att_query a
           /\ ls_mcp_results st' = Some (att_mcp_results a)
           /\ (truthy (is_valid (att_validation a)) = true
               \/ (truthy (is_valid (att_validation a)) = false
                   /\ ls_iteration st' = max_iterations self))).

(** The calls made by a piece of code, weighed: [c] gives the weight of one
    call, and [within c n m] says that [m] only appends calls to the
    history, of total weight at most [n], whether it returns or raises. *)
Definition cost (c : event -> nat) (calls : trace) : nat := list_sum (map c calls).

Definition within {A : Type} (c : event -> nat) (n : nat) (m : M A) : Prop :=
  forall tr, exists o calls, m tr = (o, (tr ++ calls)%list) /\ (cost c calls <= n)%nat.

(** Weight 1 for a gateway call, 0 for any other call. *)
Definition llm_weight (ev : event) : nat := if is_llm_call ev then 1%nat else 0%nat.

Definition is_tool_call (ev : event) : bool :=
  match ev with EvCallTool _ _ _ => true | _ => false end.

Definition is_registered (s : string) (clients : list (string * McpClient)) : bool :=
  existsb (String.eqb s) (map fst clients).

(** The calls that the configuration of the engine and the arguments of
    [process] allow: the gateway; the registered providers; the scoring
    function when there is one; the document store when collection names
    were given, in the configured mode and with these names and [k]. *)
Definition configured (E : Env) (self : Engine) (collection_names : list string)
    (k : Z) (ev : event) : bool :=
  match ev with
  | EvLLM _ _ => true
  | EvListToolSpecs s => is_registered s (mcp_clients self)
  | EvCallTool (PStr s) _ _ => is_registered s (mcp_clients self)
  | EvCallTool _ _ _ => false
  | EvRerank _ => match reranking_function self with Some _ => true | None => false end
  | EvQueryCollection hybrid names _ k' =>
      match collection_names with [] => false | _ => true end
      && Bool.eqb hybrid (ENABLE_RAG_HYBRID_SEARCH E)
      && (if list_eq_dec string_dec names collection_names then true else false)
      && (k' =? k)
  end.

Definition unconfigured_weight (E : Env) (self : Engine) (collection_names : list string)
    (k : Z) (ev : event) : nat :=
  if configured E self collection_names k ev then 0%nat else 1%nat.

(** The tool results that a sequence of calls gives, read off the history:
    [calls] were made after the history [tr]; each call to a tool of a
    registered provider that returned contributes the result dict built
    from it for query [q], in the order of the calls; a call that raised,
    and any other call, contributes nothing. *)
Fixpoint replay_tool_calls (q : pyval) (clients : list (string * McpClient))
    (tr : trace) (calls : trace) : list pyval :=
  match calls with
  | [] => []
  | ev :: rest =>
      (match ev with
       | EvCallTool (PStr s) tool_name arguments =>
           match assoc_get s clients with
           | Some client =>
               match call_tool client tr tool_name arguments with
               | Ok value => [PDict [("server_id", PStr s); ("tool_name", tool_name);
                                     ("result", value); ("query", q)]]
               | Raise _ => []
               end
           | None => []
           end
       | _ => []
       end ++ replay_tool_calls q clients (tr ++ [ev]) rest)%list
  end.

(** A text of ASCII characters only; on such a text the [strip] above is
    the [str.strip()] of Python. *)
Definition is_ascii_text (s : string) : bool :=
  forallb (fun ch => (nat_of_ascii ch <? 128)%nat) (list_ascii_of_string s).

(** The position, among the pairs sent to the scoring function, of the
    first document of the source at index [i]. *)
Definition first_pair_of (srcs : list Source) (i : nat) : nat :=
  List.length (sentences_of (firstn i srcs) PNone).

(** The scores of [n] consecutive pairs from position [start] on, a missing
    score being 0.0. *)
Definition scores_from (scores : list Q) (start n : nat) : list Q :=
  map (fun j => nth (start + j) scores 0%Q) (seq 0 n).

(** What a rerank pass keeps of a source: its other keys, whether it has
    documents and metadata at all, and the whole source when it has no
    documents key. *)
Definition same_shape (s s' : Source) : Prop :=
  other_keys s' = other_keys s
  /\ (document s = None <-> document s' = None)
  /\ (metadata s = None <-> metadata s' = None)
  /\ (document s = None -> s' = s).

(** Whatever [m] returns satisfies [P]. *)
Definition ensures {A : Type} (P : A -> Prop) (m : M A) : Prop :=
  forall tr a tr', m tr = (Ok a, tr') -> P a.

(** Weight 1 for a tool call, 0 for any other call. *)
Definition tool_weight (ev : event) : nat := if is_tool_call ev then 1%nat else 0%nat.

(** The tool results returned by [m] are those that its calls give. *)
Definition accounts_for (q : pyval) (clients : list (string * McpClient))
    (m : M (list pyval)) : Prop :=
  forall tr, exists o calls,
    m tr = (o, (tr ++ calls)%list)
    /\ match o with
       | Ok res => res = replay_tool_calls q clients tr calls
       | Raise _ => replay_tool_calls q clients tr calls = []
       end.

(** A store with two dicts. *)
Definition two_source_store : store :=
  fun id => match id with
            | O => source_of ["a"] [PInt 0]
            | _ => source_of ["x"; "y"] [PInt 1; PInt 2]
            end.

(** * Properties *)

(** ** The helpers on sample inputs *)

Example find_rfind_example :
  find "ab{c}d}" "{" = 2 /\ rfind "ab{c}d}" "}" = 6
  /\ find "abc" "{" = -1 /\ rfind "abc" "}" = -1.
Proof. repeat split. Qed.

Example slice_example : slice "ab{c}d}x" 2 7 = "{c}d}" /\ slice "ab{c" 2 0 = EmptyString.
Proof. split; reflexivity. Qed.

Example strip_example : strip "  a b  " = "a b".
Proof. reflexivity. Qed.

Example lower_example : lower "Not RELEVANT" = "not relevant".
Proof. reflexivity. Qed.

Example contains_example : contains "no" "known" = true /\ contains "no" "yes" = false.
Proof. split; reflexivity. Qed.

(** Items with equal keys keep their order, also in the descending sort. *)
Example sort_desc_example :
  sort_desc fst [(1%Q, "a"); (2%Q, "b"); (1%Q, "c"); (2%Q, "d")]
  = [(2%Q, "b"); (2%Q, "d"); (1%Q, "a"); (1%Q, "c")].
Proof. reflexivity. Qed.

Example take_scores_example :
  take_scores ["a"; "b"; "c"] [5 # 10; 7 # 10]%Q 1 = ([7 # 10; 0; 0]%Q, 2%nat).
Proof. reflexivity. Qed.

(** ** Sorting *)

Section SortingFacts.
Context {A : Type} (key : A -> Q).

Lemma insert_desc_perm (x : A) (l : list A) :
  Permutation (insert_desc key x l) (x :: l).
Proof.
  induction l as [|y l IH]; simpl.
  - apply Permutation_refl.
  - destruct (Qle_bool (key y) (key x)).
    + apply Permutation_refl.
    + eapply perm_trans; [apply perm_skip, IH | apply perm_swap].
Qed.

Lemma sort_desc_perm (l : list A) : Permutation (sort_desc key l) l.
Proof.
  induction l as [|x l IH]; simpl.
  - constructor.
  - eapply perm_trans; [apply insert_desc_perm | apply perm_skip, IH].
Qed.

Lemma sort_desc_length (l : list A) :
  List.length (sort_desc key l) = List.length l.
Proof. apply Permutation_length, sort_desc_perm. Qed.

(** Items that all carry the same key are left where they are. *)
Lemma sort_desc_same_key (c : Q) (l : list A) :
  Forall (fun x => key x = c) l -> sort_desc key l = l.
Proof.
  induction 1 as [|x l Hx Hl IH]; simpl; [reflexivity|].
  rewrite IH. destruct Hl as [|y l' Hy _]; simpl; [reflexivity|].
  rewrite Hx, Hy.
  replace (Qle_bool c c) with true; [reflexivity|].
  symmetry. apply Qle_bool_iff, Qle_refl.
Qed.
End SortingFacts.

Lemma zip3_length {A B C : Type} (a : list A) (b : list B) (c : list C) :
  List.length c = List.length a ->
  List.length (zip3 a b c) = Nat.min (List.length a) (List.length b).
Proof.
  revert b c. induction a as [|x a IH]; intros [|y b] [|z c] H; simpl in *;
    try reflexivity; try discriminate.
  f_equal. apply IH. lia.
Qed.

Lemma zip3_pairs {A B C : Type} (a : list A) (b : list B) (c : list C) :
  List.length c = List.length a ->
  map (fun t => (fst3 t, snd3 t)) (zip3 a b c) = combine a b.
Proof.
  revert b c. induction a as [|x a IH]; intros [|y b] [|z c] H; simpl in *;
    try reflexivity; try discriminate.
  unfold fst3, snd3 at 1; simpl. f_equal. apply IH. lia.
Qed.

Lemma combine_of_triples {A B C : Type} (l : list (A * B * C)) :
  combine (map fst3 l) (map snd3 l) = map (fun t => (fst3 t, snd3 t)) l.
Proof. induction l as [|t l IH]; simpl; [reflexivity | now rewrite IH]. Qed.

Lemma zip3_zero_scores {A B : Type} (a : list A) (b : list B) (n : nat) :
  Forall (fun t => thd3 t = 0%Q) (zip3 a b (repeat 0%Q n)).
Proof.
  revert b n. induction a as [|x a IH]; intros [|y b] [|n]; simpl; constructor.
  - reflexivity.
  - apply IH.
Qed.

Lemma take_scores_length (docs : list string) (scores : list Q) (idx : nat) :
  List.length (fst (take_scores docs scores idx)) = List.length docs.
Proof.
  revert idx. induction docs as [|d docs IH]; intros idx; simpl; [reflexivity|].
  destruct (idx <? List.length scores)%nat.
  - specialize (IH (S idx)). destruct (take_scores docs scores (S idx)); simpl in *.
    now rewrite IH.
  - specialize (IH idx). destruct (take_scores docs scores idx); simpl in *.
    now rewrite IH.
Qed.

(** ** The final sort of the sources moves nothing *)

Lemma py_max_same (c : Q) (l : list Q) (m : Q) :
  Forall (fun x => x = c) l -> py_max l = Ok m -> m = c.
Proof.
  intros Hall. destruct Hall as [|x l Hx Hl]; simpl; [discriminate|].
  intros [= <-]. subst x.
  induction Hl as [|y l Hy Hl IH]; simpl; [reflexivity|].
  subst y. destruct (Qle_bool c c); exact IH.
Qed.

Lemma source_sort_key_zero (r : Source) (k : Q) :
  source_sort_key r = Ok k -> k = 0%Q.
Proof.
  unfold source_sort_key.
  destruct (document r) as [[|d docs]|]; try (now intros [= <-]).
  apply py_max_same. apply Forall_map.
  eapply Permutation_Forall; [apply Permutation_sym, sort_desc_perm|].
  apply zip3_zero_scores.
Qed.

Lemma keys_of_zero (l : list Source) (ks : list (Q * Source)) :
  keys_of l = Ok ks -> ks = map (fun r => (0%Q, r)) l.
Proof.
  revert ks. induction l as [|r l IH]; simpl; intros ks.
  - now intros [= <-].
  - destruct (source_sort_key r) as [k|e] eqn:Hk; simpl; [|discriminate].
    destruct (keys_of l) as [ks'|e]; simpl; [|discriminate].
    intros [= <-]. rewrite (source_sort_key_zero _ _ Hk), (IH _ eq_refl).
    reflexivity.
Qed.

(** Whenever the final sort goes through, it returns the list it was given:
    every key it computes is 0.0. *)
Lemma sort_sources_unchanged (l l' : list Source) :
  sort_sources l = Ok l' -> l' = l.
Proof.
  unfold sort_sources. destruct (keys_of l) as [ks|e] eqn:Hks; simpl; [|discriminate].
  intros [= <-]. rewrite (keys_of_zero _ _ Hks).
  rewrite (sort_desc_same_key fst 0%Q).
  - rewrite map_map. simpl. apply map_id.
  - apply Forall_map. simpl. apply Forall_forall. reflexivity.
Qed.

(** ** What a rerank pass returns *)

Lemma rerank_scored (self : Engine) score (srcs : list Source) (q : pyval)
    (tr : trace) (scores : list Q) :
  reranking_function self = Some score ->
  sentences_of srcs q <> [] ->
  score tr (sentences_of srcs q) = Ok scores ->
  rerank_search_results self srcs q tr
  = (Ok (apply_scores srcs scores 0), (tr ++ [EvRerank (sentences_of srcs q)])%list).
Proof.
  intros Hf Hne Hs. unfold rerank_search_results. rewrite Hf.
  destruct srcs as [|s0 srcs']; [now elim Hne|].
  destruct (sentences_of (s0 :: srcs') q) as [|p ps] eqn:Hsent; [now elim Hne|].
  unfold try_except, bind, call, lift. rewrite Hs.
  destruct (sort_sources (apply_scores (s0 :: srcs') scores 0)) as [l'|e] eqn:Hsort.
  - now rewrite (sort_sources_unchanged _ _ Hsort).
  - reflexivity.
Qed.

Lemma rerank_scorer_fails (self : Engine) score (srcs : list Source) (q : pyval)
    (tr : trace) (e : exn) :
  reranking_function self = Some score ->
  sentences_of srcs q <> [] ->
  score tr (sentences_of srcs q) = Raise e ->
  rerank_search_results self srcs q tr
  = (Ok srcs, (tr ++ [EvRerank (sentences_of srcs q)])%list).
Proof.
  intros Hf Hne Hs. unfold rerank_search_results. rewrite Hf.
  destruct srcs as [|s0 srcs']; [now elim Hne|].
  destruct (sentences_of (s0 :: srcs') q) as [|p ps] eqn:Hsent; [now elim Hne|].
  unfold try_except, bind, call, lift. now rewrite Hs.
Qed.

(** A pass either hands the list back as it is, or hands back the list with
    the scores applied. *)
Lemma rerank_cases (self : Engine) (srcs : list Source) (q : pyval) (tr : trace) :
  exists res tr',
    rerank_search_results self srcs q tr = (Ok res, tr')
    /\ (res = srcs \/ exists scores, res = apply_scores srcs scores 0).
Proof.
  destruct (reranking_function self) as [score|] eqn:Hf.
  - destruct (sentences_of srcs q) as [|p ps] eqn:Hsent.
    + exists srcs, tr. split; [|now left].
      unfold rerank_search_results. rewrite Hf, Hsent. now destruct srcs.
    + assert (Hne : sentences_of srcs q <> []) by (rewrite Hsent; discriminate).
      destruct (score tr (sentences_of srcs q)) as [scores|e] eqn:Hs.
      * eexists _, _. split; [apply (rerank_scored _ _ _ _ _ _ Hf Hne Hs)|].
        right. now exists scores.
      * eexists _, _. split; [apply (rerank_scorer_fails _ _ _ _ _ _ Hf Hne Hs)|].
        now left.
  - exists srcs, tr. split; [|now left].
    unfold rerank_search_results. now rewrite Hf.
Qed.

(** Applying the scores keeps every source at its place and reorders it by
    some scores, one per document. *)
Lemma apply_scores_nth (srcs : list Source) (scores : list Q) (idx i : nat)
    (src : Source) :
  nth_error srcs i = Some src ->
  exists src',
    nth_error (apply_scores srcs scores idx) i = Some src'
    /\ match document src with
       | None => src' = src
       | Some docs =>
           exists doc_scores,
             List.length doc_scores = List.length docs
             /\ src' = reorder_source src docs doc_scores
       end.
Proof.
  revert idx i. induction srcs as [|s srcs IH]; intros idx i Hnth.
  - destruct i; discriminate.
  - simpl. destruct i as [|i]; simpl in Hnth.
    + injection Hnth as ->.
      destruct (document src) as [docs|] eqn:Hd.
      * pose proof (take_scores_length docs scores idx) as Hlen.
        destruct (take_scores docs scores idx) as [doc_scores idx']; simpl in *.
        eexists. split; [reflexivity|]. now exists doc_scores.
      * eexists. split; reflexivity.
    + destruct (document s) as [docs|].
      * destruct (take_scores docs scores idx) as [doc_scores idx']. simpl.
        apply IH, Hnth.
      * simpl. apply IH, Hnth.
Qed.

(** The documents and metadata of a reordered source are the two sides of
    the same sorted triples. *)
Lemma reorder_source_fields (src : Source) (docs : list string) (doc_scores : list Q) :
  document src = Some docs ->
  List.length doc_scores = List.length docs ->
  docs <> [] ->
  let sorted := sort_desc thd3 (zip3 docs (get_metadata src) doc_scores) in
  document (reorder_source src docs doc_scores) = Some (map fst3 sorted)
  /\ metadata (reorder_source src docs doc_scores)
     = match metadata src with Some _ => Some (map snd3 sorted) | None => None end.
Proof.
  intros Hd Hlen Hne. unfold reorder_source.
  destruct doc_scores as [|s ss]; [destruct docs; [now elim Hne | discriminate]|].
  simpl. split; reflexivity.
Qed.

Lemma reorder_source_empty (src : Source) (doc_scores : list Q) :
  List.length doc_scores = 0%nat -> reorder_source src [] doc_scores = src.
Proof. destruct doc_scores; [reflexivity | discriminate]. Qed.

Lemma sorted_triples_pairs (docs : list string) (meta : list pyval) (doc_scores : list Q) :
  List.length doc_scores = List.length docs ->
  let sorted := sort_desc thd3 (zip3 docs meta doc_scores) in
  Permutation (combine (map fst3 sorted) (map snd3 sorted)) (combine docs meta).
Proof.
  intros Hlen sorted. rewrite combine_of_triples.
  rewrite <- (zip3_pairs docs meta doc_scores Hlen).
  apply Permutation_map, sort_desc_perm.
Qed.

Lemma sentences_nonempty (srcs : list Source) (q : pyval) (i : nat) (src : Source)
    (docs : list string) :
  nth_error srcs i = Some src -> document src = Some docs -> docs <> [] ->
  sentences_of srcs q <> [].
Proof.
  intros Hnth Hd Hne Hnil. destruct docs as [|d docs]; [now elim Hne|].
  assert (Hin : In (q, d) (sentences_of srcs q)).
  { unfold sentences_of. apply in_flat_map. exists src. split.
    - eapply nth_error_In, Hnth.
    - rewrite Hd. now left. }
  rewrite Hnil in Hin. exact Hin.
Qed.



(** ** Claims about reranking *)

(** C3.  For a source whose documents and metadata are index-aligned (two
    sequences of the same length), a rerank pass returns, at the same place
    in the result, a source whose documents and metadata are again two
    sequences of one length, and whose (document, metadata) pairs are a
    rearrangement of the pairs it had before: the i-th metadata entry still
    belongs to the i-th document.  This holds for every scoring function,
    whatever scores it returns and also when it fails. *)
Theorem C3_rerank_keeps_documents_and_metadata_aligned
    (self : Engine) (srcs : list Source) (q : pyval) (tr : trace)
    (i : nat) (src : Source) (docs : list string) (meta : list pyval) :
  nth_error srcs i = Some src ->
  document src = Some docs ->
  metadata src = Some meta ->
  List.length docs = List.length meta ->
  exists res tr' src' docs' meta',
    rerank_search_results self srcs q tr = (Ok res, tr')
    /\ nth_error res i = Some src'
    /\ document src' = Some docs'
    /\ metadata src' = Some meta'
    /\ List.length docs' = List.length meta'
    /\ Permutation (combine docs' meta') (combine docs meta).
Proof.
  intros Hnth Hd Hm Hlen.
  destruct (rerank_cases self srcs q tr) as (res & tr' & Hr & [-> | [scores ->]]).
  - exists srcs, tr', src, docs, meta. repeat split; auto.
  - destruct (apply_scores_nth srcs scores 0 i src Hnth) as (src' & Hnth' & Hsrc').
    rewrite Hd in Hsrc'. destruct Hsrc' as (doc_scores & Hsl & ->).
    destruct docs as [|d docs].
    + rewrite reorder_source_empty in Hnth' by exact Hsl.
      eexists _, tr', src, [], meta. repeat split; eauto.
    + destruct (reorder_source_fields src (d :: docs) doc_scores Hd Hsl)
        as [Hd' Hm']; [discriminate|].
      unfold get_metadata in Hd', Hm'. rewrite Hm in Hd', Hm'.
      eexists _, tr', _, _, _. repeat split; eauto.
      * now rewrite !length_map.
      * apply sorted_triples_pairs, Hsl.
Qed.

(** C4 (the code departs from the claim).  The final sort never changes
    the order of the sources: when it goes through it returns its input,
    because the key of every source is computed from a list of zeros and
    not from the scores.  So, for two sources with one passage each, where
    the scoring function gives 0.1 to the passage of the first and 0.9 to
    the passage of the second, the pass returns the sources in the order
    they came in, first the one whose top score is 0.1. *)
Theorem C4_sources_stay_in_input_order :
  (forall l : list Source, sort_sources l = Ok l \/ exists e, sort_sources l = Raise e)
  /\ rerank_search_results (scoring_engine [1 # 10; 9 # 10])
       [source_of ["a"] [PInt 0]; source_of ["b"] [PInt 1]] (PStr "q") []
     = (Ok [source_of ["a"] [PInt 0]; source_of ["b"] [PInt 1]],
        [EvRerank [(PStr "q", "a"); (PStr "q", "b")]]).
Proof.
  split; [|reflexivity].
  intros l. destruct (sort_sources l) as [l'|e] eqn:Hsort.
  - left. f_equal. apply sort_sources_unchanged, Hsort.
  - right. now exists e.
Qed.



Lemma C3_rerank_keeps_documents_and_metadata_aligned_witness :
  exists res tr' src' docs' meta',
    rerank_search_results (scoring_engine [1 # 10; 9 # 10; 1 # 2])
      [source_of ["a"; "b"; "c"] [PInt 0; PInt 1; PInt 2]] (PStr "q") []
    = (Ok res, tr')
    /\ nth_error res 0 = Some src'
    /\ document src' = Some docs'
    /\ metadata src' = Some meta'
    /\ List.length docs' = List.length meta'
    /\ Permutation (combine docs' meta')
         (combine ["a"; "b"; "c"] [PInt 0; PInt 1; PInt 2]).
Proof.
  apply (C3_rerank_keeps_documents_and_metadata_aligned
           (scoring_engine [1 # 10; 9 # 10; 1 # 2])
           [source_of ["a"; "b"; "c"] [PInt 0; PInt 1; PInt 2]] (PStr "q") [] 0%nat
           (source_of ["a"; "b"; "c"] [PInt 0; PInt 1; PInt 2])
           ["a"; "b"; "c"] [PInt 0; PInt 1; PInt 2]); reflexivity.
Defined.


(** C8, as stated, fails when the scoring function is configured but its
    call raises: the pass hands the list back untouched, and a source with
    two documents and one metadata entry keeps its two documents. *)
Lemma C8_counterexample_scorer_raises :
  reranking_function failing_scoring_engine <> None
  /\ exists tr',
       rerank_search_results failing_scoring_engine
         [mk_Source (Some ["a"; "b"]) (Some [PInt 0]) []] (PStr "q") []
       = (Ok [mk_Source (Some ["a"; "b"]) (Some [PInt 0]) []], tr')
       /\ List.length ["a"; "b"] <> List.length [PInt 0].
Proof.
  split; [discriminate|]. eexists. split; [vm_compute; reflexivity | discriminate].
Qed.

(** C8, amended.  When a scoring function is configured and its call returns
    scores, a source with a non-empty documents list whose metadata is
    missing or shorter than its documents comes back with its documents cut
    to the length of that metadata: to the empty list when the metadata is
    missing. *)
Theorem C8_documents_cut_to_metadata_length
    (self : Engine) score (srcs : list Source) (q : pyval) (tr : trace)
    (scores : list Q) (i : nat) (src : Source) (docs : list string) :
  reranking_function self = Some score ->
  score tr (sentences_of srcs q) = Ok scores ->
  nth_error srcs i = Some src ->
  document src = Some docs ->
  docs <> [] ->
  match metadata src with
  | Some meta => (List.length meta < List.length docs)%nat
  | None => True
  end ->
  exists res tr' src' docs',
    rerank_search_results self srcs q tr = (Ok res, tr')
    /\ nth_error res i = Some src'
    /\ document src' = Some docs'
    /\ match metadata src with
       | Some meta => List.length docs' = List.length meta
       | None => docs' = []
       end.
Proof.
  intros Hf Hs Hnth Hd Hne Hshort.
  pose proof (sentences_nonempty srcs q i src docs Hnth Hd Hne) as Hsent.
  destruct (apply_scores_nth srcs scores 0 i src Hnth) as (src' & Hnth' & Hsrc').
  rewrite Hd in Hsrc'. destruct Hsrc' as (doc_scores & Hsl & ->).
  destruct (reorder_source_fields src docs doc_scores Hd Hsl Hne) as [Hd' _].
  eexists _, _, _, _. split; [apply (rerank_scored self score srcs q tr scores Hf Hsent Hs)|].
  split; [exact Hnth'|]. split; [exact Hd'|].
  unfold get_metadata. destruct (metadata src) as [meta|].
  - rewrite length_map, sort_desc_length, zip3_length by exact Hsl. lia.
  - destruct docs; reflexivity.
Qed.

Lemma C8_documents_cut_to_metadata_length_witness :
  exists res tr' src' docs',
    rerank_search_results (scoring_engine [1 # 10; 9 # 10; 1 # 2])
      [mk_Source (Some ["a"; "b"; "c"]) (Some [PInt 0; PInt 1]) []] (PStr "q") []
    = (Ok res, tr')
    /\ nth_error res 0 = Some src'
    /\ document src' = Some docs'
    /\ List.length docs' = List.length [PInt 0; PInt 1].
Proof.
  apply (C8_documents_cut_to_metadata_length
           (scoring_engine [1 # 10; 9 # 10; 1 # 2])
           (const_scores [1 # 10; 9 # 10; 1 # 2])
           [mk_Source (Some ["a"; "b"; "c"]) (Some [PInt 0; PInt 1]) []]
           (PStr "q") [] [1 # 10; 9 # 10; 1 # 2]%Q 0%nat
           (mk_Source (Some ["a"; "b"; "c"]) (Some [PInt 0; PInt 1]) [])
           ["a"; "b"; "c"]);
    try reflexivity; [discriminate | simpl; lia].
Defined.

(** ** Claims about the tool orchestrator and the gateway responses *)

Lemma list_available_tools_all_fail (clients : list (string * McpClient))
    (acc : list pyval) (tr : trace) :
  (forall id c, In (id, c) clients ->
                forall tr0, exists e, list_tool_specs c tr0 = Raise e) ->
  list_available_tools clients acc tr
  = (Ok acc, (tr ++ map (fun ic => EvListToolSpecs (fst ic)) clients)%list).
Proof.
  revert tr. induction clients as [|[id c] clients IH]; intros tr Hfail; simpl.
  - now rewrite app_nil_r.
  - destruct (Hfail id c (or_introl eq_refl) tr) as [e ->]. simpl.
    rewrite IH by (intros id' c' Hin; apply (Hfail id' c'); now right).
    now rewrite <- app_assoc.
Qed.

(** C6.  With an empty registry the orchestrator returns the empty sequence
    and makes no call at all.  With a registry whose every listing call
    fails it returns the empty sequence too, and the calls it has made are
    no gateway calls (they are the listing calls). *)
Theorem C6_no_tools_no_planning_call (E : Env) (q : pyval) :
  (forall tr, interact_with_mcp_servers E q [] tr = (Ok [], tr))
  /\ (forall (clients : list (string * McpClient)) (tr : trace),
         (forall id c, In (id, c) clients ->
                       forall tr0, exists e, list_tool_specs c tr0 = Raise e) ->
         exists calls,
           interact_with_mcp_servers E q clients tr = (Ok [], (tr ++ calls)%list)
           /\ Forall (fun ev => is_llm_call ev = false) calls).
Proof.
  split; [reflexivity|].
  intros clients tr Hfail. destruct clients as [|ic clients].
  - exists []. split; [now rewrite app_nil_r | constructor].
  - unfold interact_with_mcp_servers, try_except, bind, lift.
    destruct (_get_task_model_id E) as [model|e].
    + rewrite (list_available_tools_all_fail _ _ _ Hfail).
      eexists. split; [reflexivity|].
      apply Forall_map, Forall_forall. reflexivity.
    + exists []. split; [now rewrite app_nil_r | constructor].
Qed.

Lemma C6_no_tools_no_planning_call_witness :
  interact_with_mcp_servers refusing_env (PStr "q") [] [] = (Ok [], [])
  /\ exists calls,
       interact_with_mcp_servers refusing_env (PStr "q")
         [("s1", broken_client); ("s2", broken_client)] []
       = (Ok [], ([] ++ calls)%list)
       /\ Forall (fun ev => is_llm_call ev = false) calls.
Proof.
  split.
  - apply (proj1 (C6_no_tools_no_planning_call refusing_env (PStr "q")) []).
  - apply (proj2 (C6_no_tools_no_planning_call refusing_env (PStr "q"))
             [("s1", broken_client); ("s2", broken_client)] []).
    intros id c [H | [H | []]] tr0; injection H as _ <-; eexists; reflexivity.
Defined.

(** C7 (the code departs from the claim).  A response without a [choices]
    key yields the empty text.  A response whose [choices] is the empty
    list does not: indexing it raises, and the generator hands back the
    text of that error as its answer. *)
Theorem C7_empty_choices_list_raises :
  response_content (PDict []) = Ok (PStr EmptyString)
  /\ response_content (PDict [("choices", PList [])])
     = Raise (mk_exn IndexError "list index out of range")
  /\ fst (generate_answer empty_choices_env (PStr "q") EmptyString [] [] [])
     = Ok (PStr "Error generating answer: list index out of range").
Proof. repeat split. Qed.

(** ** Claims about the keyword fallback of the validator *)

Lemma lower_app (a b : string) : lower (a ++ b) = lower a ++ lower b.
Proof. induction a as [|c a IH]; simpl; [reflexivity | now rewrite IH]. Qed.

Lemma prefix_app (s t : string) : prefix s (s ++ t) = true.
Proof.
  induction s as [|c s IH]; simpl; [now destruct t|].
  destruct (ascii_dec c c) as [_|Hn]; [exact IH | now elim Hn].
Qed.

Lemma contains_of_prefix (sub s : string) : prefix sub s = true -> contains sub s = true.
Proof. intros H. destruct s; cbn [contains]; rewrite H; reflexivity. Qed.

Lemma contains_app (sub pre post : string) : contains sub (pre ++ sub ++ post) = true.
Proof.
  induction pre as [|c pre IH].
  - change (EmptyString ++ sub ++ post) with (sub ++ post).
    apply contains_of_prefix, prefix_app.
  - change (String c pre ++ sub ++ post) with (String c (pre ++ sub ++ post)).
    cbn [contains]. rewrite IH. apply orb_true_r.
Qed.

Lemma any_word_in_found (word : string) (words : list string) (text : string) :
  In word words -> contains word text = true -> any_word_in words text = true.
Proof.
  intros Hin Hc. unfold any_word_in. apply existsb_exists. now exists word.
Qed.

(** C9.  A text in which some spelling of [no] occurs (in any case, also
    inside a longer word) is parsed by the keyword fallback as not correct
    and not relevant, and the validation result built from that is not
    valid. *)
Theorem C9_keyword_no_makes_answer_invalid (text pre w post : string) :
  text = pre ++ w ++ post ->
  lower w = "no" ->
  exists result v,
    _parse_validation_from_text (PStr text) = Ok result
    /\ py_get result "is_correct" (PBool true) = Ok (PBool false)
    /\ py_get result "is_relevant" (PBool true) = Ok (PBool false)
    /\ validation_of_result result = Ok v
    /\ is_correct v = PBool false
    /\ is_relevant v = PBool false
    /\ is_valid v = PBool false
    /\ truthy (is_valid v) = false.
Proof.
  intros -> Hw.
  assert (Hc : contains "no" (lower (pre ++ w ++ post)) = true).
  { rewrite !lower_app, Hw. apply contains_app. }
  unfold _parse_validation_from_text, as_str, obind.
  rewrite (any_word_in_found "no" ["incorrect"; "wrong"; "false"; "no"] _
             ltac:(simpl; tauto) Hc).
  rewrite (any_word_in_found "no" ["irrelevant"; "not relevant"; "no"] _
             ltac:(simpl; tauto) Hc).
  eexists _, _. repeat split.
Qed.

Lemma C9_keyword_no_makes_answer_invalid_witness :
  exists result v,
    _parse_validation_from_text (PStr "Unknown") = Ok result
    /\ py_get result "is_correct" (PBool true) = Ok (PBool false)
    /\ py_get result "is_relevant" (PBool true) = Ok (PBool false)
    /\ validation_of_result result = Ok v
    /\ is_correct v = PBool false
    /\ is_relevant v = PBool false
    /\ is_valid v = PBool false
    /\ truthy (is_valid v) = false.
Proof.
  apply (C9_keyword_no_makes_answer_invalid "Unknown" "Unk" "no" "wn"); reflexivity.
Defined.

(** ** The stages never raise *)

Lemma always_ok_ret {A : Type} (a : A) : always_ok (ret a).
Proof. intros tr. now exists a, tr. Qed.

Lemma always_ok_bind {A B : Type} (m : M A) (k : A -> M B) :
  always_ok m -> (forall a, always_ok (k a)) -> always_ok (bind m k).
Proof.
  intros Hm Hk tr. unfold bind. destruct (Hm tr) as (a & tr1 & ->). apply Hk.
Qed.

Lemma always_ok_try_except {A : Type} (body : M A) (handler : exn -> M A) :
  (forall e, always_ok (handler e)) -> always_ok (try_except body handler).
Proof.
  intros Hh tr. unfold try_except.
  destruct (body tr) as [[a|e] tr1]; [now exists a, tr1 | apply Hh].
Qed.

Create HintDb stages.

#[local] Hint Resolve always_ok_ret always_ok_try_except : stages.

Section StagesReturn.
Variable E : Env.
Variable self : Engine.

Lemma analyze_query_ok q ch : always_ok (analyze_query E q ch).
Proof. unfold analyze_query. auto with stages. Qed.

Lemma interact_with_mcp_servers_ok q clients :
  always_ok (interact_with_mcp_servers E q clients).
Proof. unfold interact_with_mcp_servers. destruct clients; auto with stages. Qed.

Lemma rerank_search_results_ok srcs q : always_ok (rerank_search_results self srcs q).
Proof.
  intros tr. destruct (rerank_cases self srcs q tr) as (res & tr' & H & _). eauto.
Qed.

Lemma generate_answer_ok q context ch mcp : always_ok (generate_answer E q context ch mcp).
Proof. unfold generate_answer. auto with stages. Qed.

Lemma validate_answer_ok q a ch : always_ok (validate_answer E q a ch).
Proof. unfold validate_answer. auto with stages. Qed.

Lemma rewrite_query_ok q a v ch : always_ok (rewrite_query E q a v ch).
Proof. unfold rewrite_query. auto with stages. Qed.

(** One pass always completes. *)
Lemma attempt_ok cn ch k kr r q : always_ok (attempt E self cn ch k kr r q).
Proof.
  unfold attempt.
  apply always_ok_bind; [apply analyze_query_ok | intros analysis].
  apply always_ok_bind; [|intros tools].
  { destruct (_ && _); [apply interact_with_mcp_servers_ok | apply always_ok_ret]. }
  apply always_ok_bind; [|intros found].
  { destruct (_ && _); auto with stages. }
  apply always_ok_bind; [|intros ranked].
  { destruct found; [apply always_ok_ret|].
    destruct (reranking_function self);
      [apply rerank_search_results_ok | apply always_ok_ret]. }
  apply always_ok_bind; [apply generate_answer_ok | intros ans].
  apply always_ok_bind; [apply validate_answer_ok | intros verdict].
  apply always_ok_ret.
Qed.

(** With as many steps as iterations are left, the loop stops, returns,
    and has done what [loop_post] says. *)
Lemma process_loop_spec query cn ch k kr r :
  forall (fuel : nat) (st : LoopState) (tr : trace),
    (Z.to_nat (max_iterations self - ls_iteration st) <= fuel)%nat ->
    exists st' tr',
      process_loop E self fuel query cn ch k kr r st tr = Some (Ok st', tr')
      /\ loop_post self st st'.
Proof.
  induction fuel as [|fuel IH]; intros st tr Hfuel.
  - exists st, tr. simpl.
    destruct (ls_iteration st <? max_iterations self) eqn:Hlt.
    + apply Z.ltb_lt in Hlt. lia.
    + apply Z.ltb_ge in Hlt. split; [reflexivity | left; auto].
  - cbn [process_loop].
    destruct (ls_iteration st <? max_iterations self) eqn:Hlt.
    2:{ apply Z.ltb_ge in Hlt. exists st, tr. split; [reflexivity | left; auto]. }
    apply Z.ltb_lt in Hlt.
    destruct (attempt_ok cn ch k kr r (ls_current_query st) tr) as (a & tr1 & ->).
    destruct (truthy (is_valid (att_validation a))) eqn:Hvalid.
    + eexists _, _. split; [reflexivity|]. right. split; [exact Hlt|].
      exists [], a. cbn. repeat split; auto; try lia. constructor.
    + destruct (ls_iteration st + 1 <? max_iterations self) eqn:Hmore.
      * apply Z.ltb_lt in Hmore.
        destruct (rewrite_query_ok query (att_answer a) (att_validation a) ch tr1)
          as (q' & tr2 & ->).
        match goal with
        | |- context [process_loop _ _ _ _ _ _ _ _ _ ?s ?t] =>
            destruct (IH s t) as (st' & tr' & -> & Hpost); [cbn; lia|]
        end.
        exists st', tr'. split; [reflexivity|].
        destruct Hpost as [[Hge _] | (_ & pre & b & Hatt & Hpre & Hit & Hle & Hrest)];
          cbn in *; [lia|].
        right. split; [exact Hlt|]. exists (a :: pre), b.
        split; [rewrite Hatt, <- app_assoc; reflexivity|].
        split; [constructor; assumption|].
        split; [rewrite Hit; cbn [List.length app]; lia|].
        split; [exact Hle | exact Hrest].
      * apply Z.ltb_ge in Hmore.
        match goal with
        | |- context [process_loop _ _ _ _ _ _ _ _ _ ?s ?t] =>
            destruct (IH s t) as (st' & tr' & -> & Hpost); [cbn; lia|]
        end.
        exists st', tr'. split; [reflexivity|].
        destruct Hpost as [[_ ->] | (Hlt' & _)]; cbn in *; [|lia].
        right. split; [exact Hlt|]. exists [], a. cbn.
        repeat split; auto; try lia; [constructor|].
        right. split; [exact Hvalid | lia].
Qed.

(** [process] returns, from every history, the dict built from the state
    in which the loop stopped. *)
Lemma process_returns query cn ch k kr r tr :
  exists st' tr',
    process_with_attempts E self query cn ch k kr r tr
    = Some (Ok (final_result st', ls_attempts st'), tr')
    /\ process E self query cn ch k kr r tr = Some (Ok (final_result st'), tr')
    /\ loop_post self (initial_state query) st'.
Proof.
  destruct (process_loop_spec query cn ch k kr r (Z.to_nat (max_iterations self))
              (initial_state query) tr) as (st' & tr' & Hloop & Hpost).
  { cbn. lia. }
  exists st', tr'. unfold process, process_with_attempts. rewrite Hloop. auto.
Qed.
End StagesReturn.

(** ** Claims about the iteration controller *)

(** C1, as stated, fails for an engine built with [max_iterations = 0]:
    [process] returns [iterations = 0], which is not at least 1. *)
Lemma C1_counterexample_zero_iterations :
  exists r,
    process refusing_env (engine_of_iterations 0) "q" [] [] 5 3 (7 # 10) []
    = Some (Ok r, [])
    /\ iterations r = 0
    /\ ~ (1 <= iterations r <= max_iterations (engine_of_iterations 0)).
Proof.
  eexists. split; [vm_compute; reflexivity|]. split; [reflexivity|].
  cbn. lia.
Qed.

(** C1, amended.  [process] returns from every input, and [iterations]
    equals the number of passes made, each of them completed.  When
    [max_iterations] is at least 1, [1 <= iterations <= max_iterations];
    when it is 0 or less, [iterations] is 0. *)
Theorem C1_iterations_counts_attempts_within_bounds
    (E : Env) (self : Engine) (query : string) (collection_names : list string)
    (chat_history : list message) (k k_reranker : Z) (r : Q) (tr : trace) :
  exists res atts tr',
    process_with_attempts E self query collection_names chat_history k k_reranker r tr
    = Some (Ok (res, atts), tr')
    /\ process E self query collection_names chat_history k k_reranker r tr
       = Some (Ok res, tr')
    /\ iterations res = Z.of_nat (List.length atts)
    /\ ((1 <= max_iterations self /\ 1 <= iterations res <= max_iterations self)
        \/ (max_iterations self <= 0 /\ iterations res = 0)).
Proof.
  destruct (process_returns E self query collection_names chat_history k k_reranker r tr)
    as (st' & tr' & Hrun & Hproc & Hpost).
  exists (final_result st'), (ls_attempts st'), tr'.
  split; [exact Hrun|]. split; [exact Hproc|]. cbn [iterations final_result].
  destruct Hpost as [[Hge ->] | (Hlt & pre & a & Hatt & _ & Hit & Hle & _)];
    cbn in *.
  - split; [reflexivity|]. right. lia.
  - rewrite Hatt, Hit. split; [reflexivity|]. left.
    rewrite length_app in *. cbn in *. lia.
Qed.

(** C2, as stated, fails when the last pass generates the empty text.  Two
    passes, both judged invalid; the first generates [draft], the second (a
    gateway response without choices) generates the empty text.  [process]
    returns the fallback text: not the answer of the last pass, and although
    an answer had been produced by the first pass. *)
Lemma C2_counterexample_empty_last_answer :
  exists res a1 a2 tr',
    process_with_attempts draft_then_empty_env (engine_of_iterations 2)
      "q" [] [] 5 3 (7 # 10) []
    = Some (Ok (res, [a1; a2]), tr')
    /\ never_valid [a1; a2]
    /\ iterations res = max_iterations (engine_of_iterations 2)
    /\ att_answer a1 = PStr "draft"
    /\ att_answer a2 = PStr EmptyString
    /\ answer res = PStr fallback_answer
    /\ answer res <> att_answer a2.
Proof.
  eexists _, _, _, _. split; [vm_compute; reflexivity|].
  repeat split; try discriminate. repeat constructor.
Qed.

(** C2, amended.  With [max_iterations] not negative, [process] returns, and
    if no pass was judged valid then [iterations = max_iterations], the
    sources are those of the last pass, and the answer is the answer
    generated by the last pass when that answer is not empty; when it is
    empty ([None] or the empty text), or when no pass was made, the answer
    is the fallback text. *)
Theorem C2_exhausted_returns_last_answer_or_fallback
    (E : Env) (self : Engine) (query : string) (collection_names : list string)
    (chat_history : list message) (k k_reranker : Z) (r : Q) (tr : trace) :
  0 <= max_iterations self ->
  exists res atts tr',
    process_with_attempts E self query collection_names chat_history k k_reranker r tr
    = Some (Ok (res, atts), tr')
    /\ process E self query collection_names chat_history k k_reranker r tr
       = Some (Ok res, tr')
    /\ (never_valid atts ->
        iterations res = max_iterations self
        /\ ((atts = [] /\ answer res = PStr fallback_answer)
            \/ exists pre a,
                 atts = (pre ++ [a])%list
                 /\ sources res = att_sources a
                 /\ answer res = (if truthy (att_answer a) then att_answer a
                                  else PStr fallback_answer))).
Proof.
  intros Hmax.
  destruct (process_returns E self query collection_names chat_history k k_reranker r tr)
    as (st' & tr' & Hrun & Hproc & Hpost).
  exists (final_result st'), (ls_attempts st'), tr'.
  split; [exact Hrun|]. split; [exact Hproc|]. intros Hnever.
  destruct Hpost as [[Hge ->] | (Hlt & pre & a & Hatt & _ & Hit & Hle & Hans & Hsrc & _ & _ & Hlast)];
    cbn in *.
  - split; [lia|]. left. split; reflexivity.
  - rewrite Hatt in Hnever. apply Forall_app in Hnever. destruct Hnever as [_ Ha].
    inversion Ha as [|? ? Hinvalid _]; subst.
    destruct Hlast as [Hvalid | [_ Hend]]; [congruence|].
    split; [exact Hend|]. right. exists pre, a.
    split; [exact Hatt|]. split; [exact Hsrc|].
    unfold py_or. now rewrite Hans.
Qed.

Lemma C2_exhausted_returns_last_answer_or_fallback_witness :
  0 <= max_iterations (engine_of_iterations 3)
  /\ exists res atts tr',
       process_with_attempts refusing_env (engine_of_iterations 3)
         "q" [] [] 5 3 (7 # 10) []
       = Some (Ok (res, atts), tr')
       /\ never_valid atts
       /\ iterations res = 3
       /\ answer res = PStr "no".
Proof.
  assert (Hmax : 0 <= max_iterations (engine_of_iterations 3)) by (cbn; lia).
  split; [exact Hmax|].
  destruct (C2_exhausted_returns_last_answer_or_fallback refusing_env
              (engine_of_iterations 3) "q" [] [] 5 3 (7 # 10) [] Hmax)
    as (res & atts & tr' & Hrun & _ & Himp).
  exists res, atts, tr'. split; [exact Hrun|].
  vm_compute in Hrun. injection Hrun as <- <- _.
  split; [repeat constructor|]. split; reflexivity.
Defined.

(** C10.  An engine built with [max_iterations <= 0] makes no pass and no
    call: [process] returns at once, with the history as it was, the dict
    with the fallback text as answer, no sources, no tool results,
    [iterations = 0] and the original query as final query. *)
Theorem C10_no_attempt_when_max_iterations_not_positive
    (E : Env) (self : Engine) (query : string) (collection_names : list string)
    (chat_history : list message) (k k_reranker : Z) (r : Q) (tr : trace) :
  max_iterations self <= 0 ->
  process E self query collection_names chat_history k k_reranker r tr
  = Some (Ok (mk_ProcessResult (PStr "Unable to generate a satisfactory answer.")
                [] [] 0 (PStr query)), tr)
  /\ process_with_attempts E self query collection_names chat_history k k_reranker r tr
     = Some (Ok (mk_ProcessResult (PStr "Unable to generate a satisfactory answer.")
                   [] [] 0 (PStr query), []), tr).
Proof.
  intros Hmax. unfold process, process_with_attempts.
  replace (Z.to_nat (max_iterations self)) with 0%nat by lia.
  cbn [process_loop initial_state ls_iteration].
  replace (0 <? max_iterations self) with false by (symmetry; apply Z.ltb_ge; lia).
  split; reflexivity.
Qed.

Lemma C10_no_attempt_when_max_iterations_not_positive_witness :
  max_iterations (engine_of_iterations (-2)) <= 0
  /\ process refusing_env (engine_of_iterations (-2)) "q" ["docs"] [] 5 3 (7 # 10) []
     = Some (Ok (mk_ProcessResult (PStr "Unable to generate a satisfactory answer.")
                   [] [] 0 (PStr "q")), []).
Proof.
  assert (Hmax : max_iterations (engine_of_iterations (-2)) <= 0) by (cbn; lia).
  split; [exact Hmax|].
  apply (C10_no_attempt_when_max_iterations_not_positive refusing_env
           (engine_of_iterations (-2)) "q" ["docs"] [] 5 3 (7 # 10) [] Hmax).
Defined.


(** * Further properties of the engine *)

(** ** The result of [process] *)

Lemma truthy_py_or_text (v : pyval) (c : ascii) (s : string) :
  truthy (py_or v (PStr (String c s))) = true.
Proof. unfold py_or. destruct (truthy v) eqn:Hv; [exact Hv | reflexivity]. Qed.

(** X1.  [process] never returns an empty answer, and what it returns is
    taken from the last pass alone: every earlier pass was judged invalid,
    and the sources, the tool results and the final query are those of the
    last pass (the tool results of earlier passes are dropped).  Without any
    pass the result is the fallback answer with nothing else. *)
Theorem X1_result_is_taken_from_the_last_attempt
    (E : Env) (self : Engine) (query : string) (collection_names : list string)
    (chat_history : list message) (k k_reranker : Z) (r : Q) (tr : trace) :
  exists res atts tr',
    process_with_attempts E self query collection_names chat_history k k_reranker r tr
    = Some (Ok (res, atts), tr')
    /\ truthy (answer res) = true
    /\ ((atts = [] /\ answer res = PStr fallback_answer /\ sources res = []
         /\ mcp_results res = [] /\ final_query res = PStr query)
        \/ exists pre a,
             atts = (pre ++ [a])%list
             /\ never_valid pre
             /\ answer res = py_or (att_answer a) (PStr fallback_answer)
             /\ sources res = att_sources a
             /\ mcp_results res = att_mcp_results a
             /\ final_query res = att_query a).
Proof.
  destruct (process_returns E self query collection_names chat_history k k_reranker r tr)
    as (st' & tr' & Hrun & _ & Hpost).
  exists (final_result st'), (ls_attempts st'), tr'.
  split; [exact Hrun|]. split; [apply truthy_py_or_text|].
  destruct Hpost as [[_ ->] | (_ & pre & a & Hatt & Hpre & _ & _ & Hans & Hsrc & Hq & Hmcp & _)].
  - left. repeat split.
  - right. exists pre, a. cbn in Hatt. cbn [final_result answer sources mcp_results final_query].
    rewrite Hans, Hsrc, Hq, Hmcp. repeat split; assumption.
Qed.

(** ** More on reranking *)

Lemma reorder_source_same_shape (src : Source) (docs : list string) (doc_scores : list Q) :
  document src = Some docs -> same_shape src (reorder_source src docs doc_scores).
Proof.
  intros Hd. unfold reorder_source, same_shape.
  destruct doc_scores as [|x xs].
  - repeat split; auto.
  - cbn. rewrite Hd. destruct (metadata src); repeat split; intros; try discriminate; auto.
Qed.

Lemma apply_scores_same_shape (srcs : list Source) (scores : list Q) (idx : nat) :
  Forall2 same_shape srcs (apply_scores srcs scores idx).
Proof.
  revert idx. induction srcs as [|s srcs IH]; intros idx; simpl; [constructor|].
  destruct (document s) as [docs|] eqn:Hd.
  - destruct (take_scores docs scores idx) as [doc_scores idx'].
    constructor; [apply reorder_source_same_shape, Hd | apply IH].
  - constructor; [|apply IH]. unfold same_shape. repeat split; auto.
Qed.

Lemma same_shape_refl (srcs : list Source) : Forall2 same_shape srcs srcs.
Proof.
  induction srcs; constructor; auto. unfold same_shape. repeat split; auto.
Qed.

(** X2.  A rerank pass returns as many sources as it was given, in the same
    places, each with its other keys untouched; a source keeps or lacks its
    documents and metadata keys as before, and a source without documents
    key comes back unchanged. *)
Theorem X2_rerank_keeps_the_shape_of_the_sources
    (self : Engine) (srcs : list Source) (q : pyval) (tr : trace) :
  exists res tr',
    rerank_search_results self srcs q tr = (Ok res, tr')
    /\ List.length res = List.length srcs
    /\ Forall2 same_shape srcs res.
Proof.
  destruct (rerank_cases self srcs q tr) as (res & tr' & Hr & [-> | [scores ->]]).
  - exists srcs, tr'. split; [exact Hr|]. split; [reflexivity | apply same_shape_refl].
  - eexists _, tr'. split; [exact Hr|].
    pose proof (apply_scores_same_shape srcs scores 0) as Hshape.
    split; [symmetry; eapply Forall2_length, Hshape | exact Hshape].
Qed.

(** X3.  A rerank pass calls the scoring function at most once, with the
    (query, document) pairs of all sources in their order.  It makes no
    call, and returns its input as it is, exactly when no scoring function
    is configured or the sources hold no document. *)
Theorem X3_rerank_calls_the_scorer_at_most_once
    (self : Engine) (srcs : list Source) (q : pyval) (tr : trace) :
  exists res calls,
    rerank_search_results self srcs q tr = (Ok res, (tr ++ calls)%list)
    /\ (((reranking_function self = None \/ sentences_of srcs q = [])
         /\ calls = [] /\ res = srcs)
        \/ (reranking_function self <> None /\ sentences_of srcs q <> []
            /\ calls = [EvRerank (sentences_of srcs q)])).
Proof.
  destruct (reranking_function self) as [score|] eqn:Hf.
  - destruct (sentences_of srcs q) as [|p ps] eqn:Hsent.
    + exists srcs, []. rewrite app_nil_r. split; [|left; auto].
      unfold rerank_search_results. rewrite Hf, Hsent. now destruct srcs.
    + assert (Hne : sentences_of srcs q <> []) by (rewrite Hsent; discriminate).
      destruct (score tr (sentences_of srcs q)) as [scores|e] eqn:Hs.
      * eexists _, _. split; [apply (rerank_scored _ _ _ _ _ _ Hf Hne Hs)|].
        right. rewrite Hsent. repeat split; discriminate.
      * eexists _, _. split; [apply (rerank_scorer_fails _ _ _ _ _ _ Hf Hne Hs)|].
        right. rewrite Hsent. repeat split; discriminate.
  - exists srcs, []. rewrite app_nil_r. split; [|left; auto].
    unfold rerank_search_results. now rewrite Hf.
Qed.

(** The descending sort sorts. *)
Lemma insert_desc_sorted {A : Type} (key : A -> Q) (x : A) (l : list A) :
  StronglySorted (fun a b => (key b <= key a)%Q) l ->
  StronglySorted (fun a b => (key b <= key a)%Q) (insert_desc key x l).
Proof.
  induction 1 as [|y l Hl IH Hy]; simpl.
  - constructor; constructor.
  - destruct (Qle_bool (key y) (key x)) eqn:Hle.
    + apply Qle_bool_iff in Hle.
      constructor; [constructor; assumption|].
      constructor; [exact Hle|].
      eapply Forall_impl; [|exact Hy]. intros z Hz. cbn in Hz.
      eapply Qle_trans; eassumption.
    + assert (Hlt : (key x <= key y)%Q).
      { apply Qlt_le_weak, Qnot_le_lt. intros H. apply Qle_bool_iff in H. congruence. }
      constructor; [exact IH|].
      eapply Permutation_Forall; [apply Permutation_sym, insert_desc_perm|].
      constructor; assumption.
Qed.

Lemma sort_desc_sorted {A : Type} (key : A -> Q) (l : list A) :
  StronglySorted (fun a b => (key b <= key a)%Q) (sort_desc key l).
Proof.
  induction l as [|x l IH]; simpl; [constructor | apply insert_desc_sorted, IH].
Qed.

Lemma scores_from_succ (scores : list Q) (start n : nat) :
  scores_from scores start (S n)
  = nth start scores 0%Q :: scores_from scores (S start) n.
Proof.
  unfold scores_from. rewrite <- cons_seq, <- seq_shift. simpl. rewrite Nat.add_0_r.
  f_equal. rewrite map_map. apply map_ext. intros j. f_equal. lia.
Qed.

Lemma scores_from_past_end (scores : list Q) (start n : nat) :
  (List.length scores <= start)%nat -> scores_from scores start n = repeat 0%Q n.
Proof.
  revert start. induction n as [|n IH]; intros start Hge; [reflexivity|].
  rewrite scores_from_succ, nth_overflow by lia. simpl. f_equal. apply IH. lia.
Qed.

(** The scores read for the documents of one source are the scores at the
    positions of its pairs, wherever the counter of the code stands. *)
Lemma take_scores_aligned (docs : list string) (scores : list Q) (idx start : nat) :
  idx = Nat.min start (List.length scores) ->
  fst (take_scores docs scores idx) = scores_from scores start (List.length docs)
  /\ snd (take_scores docs scores idx)
     = Nat.min (start + List.length docs) (List.length scores).
Proof.
  revert idx start. induction docs as [|d docs IH]; intros idx start Hidx.
  - simpl. split; [reflexivity | rewrite Nat.add_0_r; exact Hidx].
  - cbn [take_scores List.length]. rewrite scores_from_succ.
    destruct (idx <? List.length scores)%nat eqn:Hlt.
    + apply Nat.ltb_lt in Hlt. assert (start = idx) by lia. subst start.
      destruct (IH (S idx) (S idx)) as [H1 H2]; [lia|].
      destruct (take_scores docs scores (S idx)) as [r1 i1]. cbn [fst snd] in *.
      split; [now rewrite H1 | rewrite H2; f_equal; lia].
    + apply Nat.ltb_ge in Hlt.
      destruct (IH idx (S start)) as [H1 H2]; [lia|].
      destruct (take_scores docs scores idx) as [r1 i1]. cbn [fst snd] in *.
      split; [|rewrite H2; f_equal; lia].
      rewrite H1, nth_overflow by lia. reflexivity.
Qed.

Lemma first_pair_of_cons (s : Source) (srcs : list Source) (i : nat) :
  first_pair_of (s :: srcs) (S i)
  = (match document s with Some docs => List.length docs | None => 0 end
     + first_pair_of srcs i)%nat.
Proof.
  unfold first_pair_of. cbn [firstn sentences_of flat_map].
  rewrite length_app. f_equal. destruct (document s); [apply length_map | reflexivity].
Qed.

Lemma apply_scores_aligned (srcs : list Source) (scores : list Q) (idx start i : nat)
    (src : Source) (docs : list string) :
  idx = Nat.min start (List.length scores) ->
  nth_error srcs i = Some src ->
  document src = Some docs ->
  nth_error (apply_scores srcs scores idx) i
  = Some (reorder_source src docs
            (scores_from scores (start + first_pair_of srcs i) (List.length docs))).
Proof.
  revert idx start i. induction srcs as [|s srcs IH]; intros idx start i Hidx Hnth Hd.
  - destruct i; discriminate.
  - destruct i as [|i]; cbn [nth_error] in Hnth.
    + injection Hnth as ->. cbn [apply_scores]. rewrite Hd.
      destruct (take_scores_aligned docs scores idx start Hidx) as [H1 _].
      destruct (take_scores docs scores idx) as [r1 i1]. cbn [fst snd] in *.
      unfold first_pair_of. cbn. rewrite Nat.add_0_r. now rewrite H1.
    + cbn [apply_scores]. rewrite first_pair_of_cons.
      destruct (document s) as [docs_s|].
      * destruct (take_scores_aligned docs_s scores idx start Hidx) as [_ H2].
        destruct (take_scores docs_s scores idx) as [r1 i1]. cbn [fst snd] in *.
        cbn [nth_error].
        rewrite (IH i1 (start + List.length docs_s)%nat i H2 Hnth Hd).
        do 3 f_equal. lia.
      * cbn [nth_error]. rewrite (IH idx start i Hidx Hnth Hd). reflexivity.
Qed.

Lemma scores_from_length (scores : list Q) (start n : nat) :
  List.length (scores_from scores start n) = n.
Proof. unfold scores_from. now rewrite length_map, length_seq. Qed.

Lemma sentences_of_cons (s : Source) (srcs : list Source) (q : pyval) :
  sentences_of (s :: srcs) q
  = ((match document s with
      | Some docs => map (fun doc_text => (q, doc_text)) docs
      | None => []
      end) ++ sentences_of srcs q)%list.
Proof. reflexivity. Qed.

(** The pair sent for the [j]-th document of the source at index [i]. *)
Lemma sentences_of_position (srcs : list Source) (q : pyval) (i j : nat)
    (src : Source) (docs : list string) (d : string) :
  nth_error srcs i = Some src ->
  document src = Some docs ->
  nth_error docs j = Some d ->
  nth_error (sentences_of srcs q) (first_pair_of srcs i + j) = Some (q, d).
Proof.
  revert i. induction srcs as [|s srcs IH]; intros i Hnth Hd Hj.
  - destruct i; discriminate.
  - rewrite sentences_of_cons. destruct i as [|i]; cbn [nth_error] in Hnth.
    + injection Hnth as ->. rewrite Hd. unfold first_pair_of. cbn.
      rewrite nth_error_app1 by (rewrite length_map; eapply nth_error_Some; congruence).
      now rewrite nth_error_map, Hj.
    + rewrite first_pair_of_cons.
      rewrite nth_error_app2 by (destruct (document s); [rewrite length_map|cbn]; lia).
      replace (_ - _)%nat with (first_pair_of srcs i + j)%nat
        by (destruct (document s); [rewrite length_map|cbn]; lia).
      apply IH; assumption.
Qed.

(** *** The dicts as shared objects *)

Lemma set_source_same (h : store) (id : nat) (s : Source) : set_source h id s id = s.
Proof. unfold set_source. now rewrite Nat.eqb_refl. Qed.

Lemma set_source_other (h : store) (id j : nat) (s : Source) :
  j <> id -> set_source h id s j = h j.
Proof. intros Hne. unfold set_source. apply Nat.eqb_neq in Hne. now rewrite Hne. Qed.

(** The loop leaves alone the dicts that are not in the list. *)
Lemma apply_scores_in_place_untouched (refs : list nat) :
  forall (h : store) (scores : list Q) (idx j : nat),
    ~ In j refs -> apply_scores_in_place h refs scores idx j = h j.
Proof.
  induction refs as [|id rest IH]; intros h scores idx j Hj; cbn [apply_scores_in_place].
  - reflexivity.
  - cbv zeta. destruct (document (h id)) as [docs|].
    + destruct (take_scores docs scores idx) as [doc_scores idx'].
      rewrite IH by (intros H; apply Hj; now right).
      apply set_source_other. intros ->. apply Hj. now left.
    + apply IH. intros H. apply Hj. now right.
Qed.

(** On a list of distinct dicts, assigning in place gives the sources that
    [apply_scores] computes. *)
Lemma apply_scores_in_place_distinct (refs : list nat) :
  forall (h : store) (scores : list Q) (idx : nat),
    NoDup refs ->
    map (apply_scores_in_place h refs scores idx) refs
    = apply_scores (map h refs) scores idx.
Proof.
  induction refs as [|id rest IH]; intros h scores idx Hnd; [reflexivity|].
  inversion Hnd as [|? ? Hid Hrest]; subst.
  cbn [map apply_scores apply_scores_in_place]. cbv zeta.
  destruct (document (h id)) as [docs|].
  - destruct (take_scores docs scores idx) as [doc_scores idx'].
    f_equal.
    + rewrite apply_scores_in_place_untouched by exact Hid. apply set_source_same.
    + rewrite IH by exact Hrest. f_equal. apply map_ext_in.
      intros j Hj. apply set_source_other. intros ->. contradiction.
  - f_equal; [now apply apply_scores_in_place_untouched | now apply IH].
Qed.

Lemma keys_of_refs_zero (h : store) (refs : list nat) (ks : list (Q * nat)) :
  keys_of_refs h refs = Ok ks -> ks = map (fun id => (0%Q, id)) refs.
Proof.
  revert ks. induction refs as [|id refs IH]; simpl; intros ks.
  - now intros [= <-].
  - destruct (source_sort_key (h id)) as [k|e] eqn:Hk; simpl; [|discriminate].
    destruct (keys_of_refs h refs) as [ks'|e]; simpl; [|discriminate].
    intros [= <-]. rewrite (source_sort_key_zero _ _ Hk), (IH _ eq_refl). reflexivity.
Qed.

Lemma sort_refs_unchanged (h : store) (refs l : list nat) :
  sort_refs h refs = Ok l -> l = refs.
Proof.
  unfold sort_refs. destruct (keys_of_refs h refs) as [ks|e] eqn:Hks; simpl; [|discriminate].
  intros [= <-]. rewrite (keys_of_refs_zero _ _ _ Hks).
  rewrite (sort_desc_same_key fst 0%Q).
  - rewrite map_map. simpl. apply map_id.
  - apply Forall_map. simpl. apply Forall_forall. reflexivity.
Qed.

Lemma rerank_in_place_scored (self : Engine) score (h : store) (refs : list nat)
    (q : pyval) (tr : trace) (scores : list Q) :
  reranking_function self = Some score ->
  sentences_of (map h refs) q <> [] ->
  score tr (sentences_of (map h refs) q) = Ok scores ->
  rerank_search_results_in_place self h refs q tr
  = (Ok refs, apply_scores_in_place h refs scores 0,
     (tr ++ [EvRerank (sentences_of (map h refs) q)])%list).
Proof.
  intros Hf Hne Hs. unfold rerank_search_results_in_place. rewrite Hf.
  destruct refs as [|id rest]; [now elim Hne|]. cbv zeta.
  destruct (sentences_of (map h (id :: rest)) q) as [|p ps] eqn:Hsent; [now elim Hne|].
  rewrite Hs.
  destruct (sort_refs _ (id :: rest)) as [l|e] eqn:Hsort; [|reflexivity].
  now rewrite (sort_refs_unchanged _ _ _ Hsort).
Qed.

(** On a list of distinct dicts, the pass in place and [rerank_search_results]
    make the same calls and leave the same sources. *)
Lemma rerank_in_place_of_distinct_sources (self : Engine) (h : store) (refs : list nat)
    (q : pyval) (tr : trace) :
  NoDup refs ->
  exists h' tr',
    rerank_search_results_in_place self h refs q tr = (Ok refs, h', tr')
    /\ rerank_search_results self (map h refs) q tr = (Ok (map h' refs), tr').
Proof.
  intros Hnd.
  destruct (reranking_function self) as [score|] eqn:Hf.
  - destruct (sentences_of (map h refs) q) as [|p ps] eqn:Hsent.
    + exists h, tr. unfold rerank_search_results_in_place, rerank_search_results.
      rewrite Hf. cbv zeta. rewrite Hsent. destruct refs; split; reflexivity.
    + assert (Hne : sentences_of (map h refs) q <> []) by (rewrite Hsent; discriminate).
      destruct (score tr (sentences_of (map h refs) q)) as [scores|e] eqn:Hs.
      * eexists _, _. split; [apply (rerank_in_place_scored _ _ _ _ _ _ _ Hf Hne Hs)|].
        rewrite (rerank_scored _ _ _ _ _ _ Hf Hne Hs).
        now rewrite apply_scores_in_place_distinct.
      * exists h, (tr ++ [EvRerank (sentences_of (map h refs) q)])%list.
        split; [|apply (rerank_scorer_fails _ _ _ _ _ _ Hf Hne Hs)].
        unfold rerank_search_results_in_place. rewrite Hf.
        destruct refs as [|id rest]; [now elim Hne|]. cbv zeta.
        destruct (sentences_of (map h (id :: rest)) q); [now elim Hne|]. now rewrite Hs.
  - exists h, tr. unfold rerank_search_results_in_place, rerank_search_results.
    rewrite Hf. split; reflexivity.
Qed.

(** The same dict at two positions: the second visit sorts it again, by
    the scores of the second pair of positions, which here puts the
    documents back in ascending order of their first scores; on the list of
    values [apply_scores] sorts each copy once. *)
Example rerank_in_place_aliased_example :
  (let '(res, h', _) :=
     rerank_search_results_in_place (scoring_engine [1 # 10; 9 # 10; 1 # 10; 9 # 10])
       one_source_store [0%nat; 0%nat] (PStr "q") [] in
   (res, document (h' 0%nat)))
  = (Ok [0%nat; 0%nat], Some ["a"; "b"])
  /\ fst (rerank_search_results (scoring_engine [1 # 10; 9 # 10; 1 # 10; 9 # 10])
            (map one_source_store [0%nat; 0%nat]) (PStr "q") [])
     = Ok [source_of ["b"; "a"] [PInt 1; PInt 0]; source_of ["b"; "a"] [PInt 1; PInt 0]].
Proof. split; reflexivity. Qed.

(** X4.  When the scoring call returns and the sources are distinct dicts,
    each source with documents is left sorted by its own scores, highest
    first.  The score of its [j]-th document is the score returned at the
    position of the pair sent for that document (0.0 when the scores end
    before it): the documents of the source after the pass, and its
    metadata when it has some, are the two sides of its (document,
    metadata, score) triples, rearranged in descending order of score. *)
Theorem X4_rerank_sorts_each_source_by_its_own_scores
    (self : Engine) score (h : store) (refs : list nat) (q : pyval) (tr : trace)
    (scores : list Q) (i id : nat) (docs : list string) :
  reranking_function self = Some score ->
  score tr (sentences_of (map h refs) q) = Ok scores ->
  NoDup refs ->
  nth_error refs i = Some id ->
  document (h id) = Some docs ->
  docs <> [] ->
  (forall j d, nth_error docs j = Some d ->
               nth_error (sentences_of (map h refs) q)
                         (first_pair_of (map h refs) i + j) = Some (q, d))
  /\ exists h' tr' triples,
       rerank_search_results_in_place self h refs q tr = (Ok refs, h', tr')
       /\ Permutation triples
            (zip3 docs (get_metadata (h id))
                  (scores_from scores (first_pair_of (map h refs) i) (List.length docs)))
       /\ StronglySorted (fun a b => (thd3 b <= thd3 a)%Q) triples
       /\ document (h' id) = Some (map fst3 triples)
       /\ metadata (h' id) = match metadata (h id) with
                             | Some _ => Some (map snd3 triples)
                             | None => None
                             end.
Proof.
  intros Hf Hs Hnd Hnth Hd Hne.
  pose proof (map_nth_error h i refs Hnth) as Hsrc.
  split.
  - intros j d Hj. eapply sentences_of_position; eassumption.
  - pose proof (sentences_nonempty (map h refs) q i (h id) docs Hsrc Hd Hne) as Hsent.
    pose proof (apply_scores_aligned (map h refs) scores 0 0 i (h id) docs eq_refl Hsrc Hd)
      as Hres.
    cbn [Nat.add] in Hres.
    rewrite <- (apply_scores_in_place_distinct refs h scores 0 Hnd) in Hres.
    rewrite (map_nth_error _ i refs Hnth) in Hres. injection Hres as Hres.
    destruct (reorder_source_fields (h id) docs _ Hd
                (scores_from_length scores (first_pair_of (map h refs) i) (List.length docs))
                Hne) as [Hd' Hm'].
    eexists _, _, _.
    split; [apply (rerank_in_place_scored self score h refs q tr scores Hf Hsent Hs)|].
    split; [apply sort_desc_perm|].
    split; [apply sort_desc_sorted|].
    rewrite Hres. split; [exact Hd' | exact Hm'].
Qed.

Lemma X4_rerank_sorts_each_source_by_its_own_scores_witness :
  (forall j d, nth_error ["x"; "y"] j = Some d ->
               nth_error (sentences_of (map two_source_store [0; 1]%nat) (PStr "q"))
                         (first_pair_of (map two_source_store [0; 1]%nat) 1 + j)
               = Some (PStr "q", d))
  /\ exists h' tr' triples,
       rerank_search_results_in_place (scoring_engine [1 # 10; 2 # 10; 9 # 10])
         two_source_store [0; 1]%nat (PStr "q") []
       = (Ok [0; 1]%nat, h', tr')
       /\ Permutation triples
            (zip3 ["x"; "y"] (get_metadata (two_source_store 1%nat))
                  (scores_from [1 # 10; 2 # 10; 9 # 10]
                     (first_pair_of (map two_source_store [0; 1]%nat) 1) 2))
       /\ StronglySorted (fun a b => (thd3 b <= thd3 a)%Q) triples
       /\ document (h' 1%nat) = Some (map fst3 triples)
       /\ metadata (h' 1%nat) = Some (map snd3 triples).
Proof.
  apply (X4_rerank_sorts_each_source_by_its_own_scores
           (scoring_engine [1 # 10; 2 # 10; 9 # 10])
           (const_scores [1 # 10; 2 # 10; 9 # 10])
           two_source_store [0; 1]%nat (PStr "q") [] [1 # 10; 2 # 10; 9 # 10]%Q
           1%nat 1%nat ["x"; "y"]);
    try reflexivity; try discriminate.
  repeat constructor; cbn; intuition discriminate.
Defined.

(** ** The calls that the engine makes *)

Lemma cost_app (c : event -> nat) (a b : trace) :
  cost c (a ++ b)%list = (cost c a + cost c b)%nat.
Proof. unfold cost. now rewrite map_app, list_sum_app. Qed.

Lemma cost_llm_weight (calls : trace) :
  cost llm_weight calls = List.length (filter is_llm_call calls).
Proof.
  induction calls as [|ev calls IH]; [reflexivity|].
  change (cost llm_weight (ev :: calls)) with (llm_weight ev + cost llm_weight calls)%nat.
  cbn [filter]. unfold llm_weight at 1.
  destruct (is_llm_call ev); cbn [List.length Nat.add]; now rewrite IH.
Qed.

Lemma cost_zero (c : event -> nat) (calls : trace) :
  cost c calls = 0%nat -> Forall (fun ev => c ev = 0%nat) calls.
Proof.
  induction calls as [|ev calls IH]; [constructor|].
  change (cost c (ev :: calls)) with (c ev + cost c calls)%nat.
  intros H. constructor; [lia | apply IH; lia].
Qed.

Lemma within_weaken {A : Type} (c : event -> nat) (n n' : nat) (m : M A) :
  (n <= n')%nat -> within c n m -> within c n' m.
Proof.
  intros Hle Hm tr. destruct (Hm tr) as (o & calls & Heq & Hc).
  exists o, calls. split; [exact Heq | lia].
Qed.

Lemma within_ret {A : Type} (c : event -> nat) (n : nat) (a : A) : within c n (ret a).
Proof. intros tr. exists (Ok a), []. rewrite app_nil_r. split; [reflexivity | cbn; lia]. Qed.

Lemma within_lift {A : Type} (c : event -> nat) (n : nat) (o : outcome A) :
  within c n (lift o).
Proof. intros tr. exists o, []. rewrite app_nil_r. split; [reflexivity | cbn; lia]. Qed.

Lemma within_call {A : Type} (c : event -> nat) (n : nat) (ev : event)
    (oracle : trace -> outcome A) :
  (c ev <= n)%nat -> within c n (call ev oracle).
Proof.
  intros Hev tr. exists (oracle tr), [ev]. split; [reflexivity|].
  change (cost c [ev]) with (c ev + 0)%nat. lia.
Qed.

Lemma within_bind {A B : Type} (c : event -> nat) (n1 n2 : nat) (m : M A) (k : A -> M B) :
  within c n1 m -> (forall a, within c n2 (k a)) -> within c (n1 + n2) (bind m k).
Proof.
  intros Hm Hk tr. unfold bind. destruct (Hm tr) as ([a|e] & calls & -> & Hc).
  - destruct (Hk a (tr ++ calls)%list) as (o & calls' & -> & Hc').
    exists o, (calls ++ calls')%list. rewrite app_assoc, cost_app. split; [reflexivity | lia].
  - exists (Raise e), calls. split; [reflexivity | lia].
Qed.

Lemma within_try_except {A : Type} (c : event -> nat) (n1 n2 : nat) (body : M A)
    (handler : exn -> M A) :
  within c n1 body -> (forall e, within c n2 (handler e)) ->
  within c (n1 + n2) (try_except body handler).
Proof.
  intros Hm Hk tr. unfold try_except. destruct (Hm tr) as ([a|e] & calls & -> & Hc).
  - exists (Ok a), calls. split; [reflexivity | lia].
  - destruct (Hk e (tr ++ calls)%list) as (o & calls' & -> & Hc').
    exists o, (calls ++ calls')%list. rewrite app_assoc, cost_app. split; [reflexivity | lia].
Qed.

Lemma within_try_except_json {A : Type} (c : event -> nat) (n1 n2 : nat) (body : M A)
    (handler : M A) :
  within c n1 body -> within c n2 handler ->
  within c (n1 + n2) (try_except_json body handler).
Proof.
  intros Hm Hk tr. unfold try_except_json. destruct (Hm tr) as ([a|e] & calls & -> & Hc).
  - exists (Ok a), calls. split; [reflexivity | lia].
  - destruct (is_json_decode_error e).
    + destruct (Hk (tr ++ calls)%list) as (o & calls' & -> & Hc').
      exists o, (calls ++ calls')%list. rewrite app_assoc, cost_app.
      split; [reflexivity | lia].
    + exists (Raise e), calls. split; [reflexivity | lia].
Qed.

(** Code before the call of a stage, and code after it, weigh nothing. *)
Lemma within_bind_before {A B : Type} (c : event -> nat) (n : nat) (m : M A) (k : A -> M B) :
  within c 0 m -> (forall a, within c n (k a)) -> within c n (bind m k).
Proof. intros Hm Hk. apply (within_bind c 0 n); assumption. Qed.

Lemma within_bind_after {A B : Type} (c : event -> nat) (n : nat) (m : M A) (k : A -> M B) :
  within c n m -> (forall a, within c 0 (k a)) -> within c n (bind m k).
Proof.
  intros Hm Hk. eapply within_weaken; [|apply (within_bind c n 0); eassumption]. lia.
Qed.

Lemma within_try_except_quiet {A : Type} (c : event -> nat) (n : nat) (body : M A)
    (handler : exn -> M A) :
  within c n body -> (forall e, within c 0 (handler e)) ->
  within c n (try_except body handler).
Proof.
  intros Hm Hk. eapply within_weaken; [|apply (within_try_except c n 0); eassumption]. lia.
Qed.

Lemma within_try_except_json_quiet {A : Type} (c : event -> nat) (n : nat) (body : M A)
    (handler : M A) :
  within c n body -> within c 0 handler -> within c n (try_except_json body handler).
Proof.
  intros Hm Hk. eapply within_weaken; [|apply (within_try_except_json c n 0); eassumption].
  lia.
Qed.

Lemma assoc_get_registered (s : string) (clients : list (string * McpClient))
    (client : McpClient) :
  assoc_get s clients = Some client -> is_registered s clients = true.
Proof.
  unfold is_registered. induction clients as [|[s' c'] clients IH]; cbn; [discriminate|].
  destruct (String.eqb s s'); [reflexivity | exact IH].
Qed.

Lemma In_registered (s : string) (clients : list (string * McpClient)) :
  In s (map fst clients) -> is_registered s clients = true.
Proof.
  intros Hin. unfold is_registered. apply existsb_exists. exists s.
  split; [exact Hin | apply String.eqb_refl].
Qed.

(** Steps of a stage that make no call. *)
Ltac quiet :=
  repeat (cbv zeta;
          match goal with
          | |- within _ _ (ret _) => apply within_ret
          | |- within _ _ (lift _) => apply within_lift
          | |- within _ _ (bind _ _) => apply within_bind_before; [|intro]
          | |- within _ _ (try_except_json _ _) => apply within_try_except_json_quiet
          | |- within _ _ (try_except _ _) => apply within_try_except_quiet; [|intro]
          | |- within _ _ (if ?b then _ else _) => destruct b
          | |- within _ _ (match ?x with _ => _ end) => destruct x
          end).

(** A stage up to and including its gateway call, whose weight is [L]. *)
Ltac up_to_gateway_call HL :=
  repeat (cbv zeta;
          match goal with
          | |- within _ _ (try_except _ _) => apply within_try_except_quiet; [|intro; quiet]
          | |- within _ _ (bind (_call_llm _ _ _) _) =>
              apply within_bind_after;
              [unfold _call_llm; apply within_call, HL | intro; quiet]
          | |- within _ _ (bind _ _) => apply within_bind_before; [quiet | intro]
          | |- within _ _ (if ?b then _ else _) => destruct b
          | |- within _ _ (match ?x with _ => _ end) => destruct x
          | |- within _ _ (ret _) => apply within_ret
          | |- within _ _ (lift _) => apply within_lift
          end).

Section CallBudget.
Variable E : Env.
Variable self : Engine.
Variable collection_names : list string.
Variable k : Z.
Variable c : event -> nat.
Variable L : nat.
Hypothesis c_llm : forall model messages, (c (EvLLM model messages) <= L)%nat.
Hypothesis c_rerank :
  reranking_function self <> None -> forall sentences, c (EvRerank sentences) = 0%nat.
Hypothesis c_query :
  collection_names <> [] ->
  forall queries,
    c (EvQueryCollection (ENABLE_RAG_HYBRID_SEARCH E) collection_names queries k) = 0%nat.

Lemma list_available_tools_within (clients : list (string * McpClient)) :
  (forall s, is_registered s clients = true -> c (EvListToolSpecs s) = 0%nat) ->
  forall registered acc,
    (forall s, In s (map fst registered) -> is_registered s clients = true) ->
    within c 0 (list_available_tools registered acc).
Proof.
  intros Hc registered. induction registered as [|[s client] rest IH]; intros acc Hreg.
  - apply within_ret.
  - intros tr. cbn [list_available_tools].
    assert (Hrest : forall s', In s' (map fst rest) -> is_registered s' clients = true)
      by (intros s' Hin; apply Hreg; now right).
    assert (Hev : c (EvListToolSpecs s) = 0%nat) by (apply Hc, Hreg; now left).
    destruct (obind (list_tool_specs client tr) py_iter) as [specs|e];
      match goal with
      | |- context [list_available_tools rest ?a ?t] =>
          destruct (IH a Hrest t) as (o & calls & -> & Hcalls)
      end;
      exists o, (EvListToolSpecs s :: calls); rewrite <- app_assoc;
      (split; [reflexivity|]);
      change (cost c (EvListToolSpecs s :: calls))
        with (c (EvListToolSpecs s) + cost c calls)%nat; lia.
Qed.

Lemma execute_tools_within (q : pyval) (clients : list (string * McpClient)) :
  (forall s tool_name arguments,
      is_registered s clients = true -> c (EvCallTool (PStr s) tool_name arguments) = 0%nat) ->
  forall plan results, within c 0 (execute_tools q clients plan results).
Proof.
  intros Hc plan. induction plan as [|tool_info rest IH]; intros results.
  - apply within_ret.
  - cbn [execute_tools].
    destruct (py_get tool_info "server_id" PNone) as [server_id|]; [|apply within_ret].
    destruct (py_get tool_info "tool_name" PNone) as [tool_name|]; [|apply within_ret].
    destruct (py_get tool_info "arguments" (PDict [])) as [arguments|]; [|apply within_ret].
    destruct (lookup_client server_id clients) as [[client|]|] eqn:Hlook;
      [|apply IH | apply within_ret].
    destruct server_id; try discriminate. cbn in Hlook. injection Hlook as Hlook.
    pose proof (Hc s tool_name arguments (assoc_get_registered _ _ _ Hlook)) as Hev.
    intros tr.
    destruct (call_tool client tr tool_name arguments) as [value|e];
      match goal with
      | |- context [execute_tools q clients rest ?a ?t] =>
          destruct (IH a t) as (o & calls & -> & Hcalls)
      end;
      exists o, (EvCallTool (PStr s) tool_name arguments :: calls); rewrite <- app_assoc;
      (split; [reflexivity|]);
      change (cost c (EvCallTool (PStr s) tool_name arguments :: calls))
        with (c (EvCallTool (PStr s) tool_name arguments) + cost c calls)%nat; lia.
Qed.

Lemma analyze_query_within q ch : within c L (analyze_query E q ch).
Proof. unfold analyze_query. up_to_gateway_call c_llm. Qed.

Lemma validate_answer_within q a ch : within c L (validate_answer E q a ch).
Proof. unfold validate_answer. up_to_gateway_call c_llm. Qed.

Lemma rewrite_query_within q a v ch : within c L (rewrite_query E q a v ch).
Proof. unfold rewrite_query. up_to_gateway_call c_llm. Qed.

Lemma generate_answer_within q context ch mcp : within c L (generate_answer E q context ch mcp).
Proof. unfold generate_answer. up_to_gateway_call c_llm. Qed.

Lemma interact_with_mcp_servers_within q (clients : list (string * McpClient)) :
  (forall s, is_registered s clients = true -> c (EvListToolSpecs s) = 0%nat) ->
  (forall s tool_name arguments,
      is_registered s clients = true -> c (EvCallTool (PStr s) tool_name arguments) = 0%nat) ->
  within c L (interact_with_mcp_servers E q clients).
Proof.
  intros Hlist Htool. unfold interact_with_mcp_servers.
  destruct clients as [|p rest] eqn:Hcl; [apply within_ret|]. rewrite <- Hcl in *.
  apply within_try_except_quiet; [|intro; apply within_ret].
  apply within_bind_before; [apply within_lift | intro model].
  apply within_bind_before;
    [apply (list_available_tools_within clients Hlist); intros s; apply In_registered
    | intro available].
  destruct available as [|tool tools]; [apply within_ret|]. cbv zeta.
  apply within_bind_after; [unfold _call_llm; apply within_call, c_llm | intro response].
  quiet. apply (execute_tools_within _ _ Htool).
Qed.

Lemma rerank_search_results_within srcs q : within c 0 (rerank_search_results self srcs q).
Proof.
  unfold rerank_search_results.
  destruct (reranking_function self) as [score|] eqn:Hf; [|apply within_ret].
  destruct srcs as [|s0 srcs']; [apply within_ret|]. cbv zeta.
  destruct (sentences_of (s0 :: srcs') q) as [|p ps]; [apply within_ret|].
  apply within_try_except_quiet; [|intro; apply within_ret].
  apply within_bind_before; [|intro; quiet].
  apply within_call. rewrite c_rerank; [lia | congruence].
Qed.

Lemma within_bind_le {A B : Type} (n1 n2 n : nat) (m : M A) (f : A -> M B) :
  within c n1 m -> (forall a, within c n2 (f a)) -> (n1 + n2 <= n)%nat ->
  within c n (bind m f).
Proof.
  intros Hm Hf Hle. eapply within_weaken; [exact Hle | apply within_bind; assumption].
Qed.

Hypothesis c_list :
  forall s, is_registered s (mcp_clients self) = true -> c (EvListToolSpecs s) = 0%nat.
Hypothesis c_tool :
  forall s tool_name arguments,
    is_registered s (mcp_clients self) = true ->
    c (EvCallTool (PStr s) tool_name arguments) = 0%nat.

(** One pass makes at most four gateway calls. *)
Lemma attempt_within ch kr r q :
  within c (4 * L) (attempt E self collection_names ch k kr r q).
Proof.
  unfold attempt.
  apply (within_bind_le L (3 * L)); [apply analyze_query_within | intro analysis | lia].
  cbv zeta.
  apply (within_bind_le L (2 * L)); [| intro tools | lia].
  { destruct (_ && _);
      [apply (interact_with_mcp_servers_within _ _ c_list c_tool) | apply within_ret]. }
  apply within_bind_before; [|intro found].
  { destruct (list_eq_dec string_dec collection_names []) as [Hnil | Hcn].
    - rewrite Hnil at 1. rewrite andb_false_r. apply within_ret.
    - destruct (_ && _); [|apply within_ret].
      apply within_try_except_quiet; [|intro; apply within_ret].
      pose proof (c_query Hcn) as Hquery.
      destruct (ENABLE_RAG_HYBRID_SEARCH E); apply within_call; rewrite Hquery; lia. }
  apply within_bind_before; [|intro ranked].
  { pose proof rerank_search_results_within as Hrerank.
    destruct found; [apply within_ret|].
    destruct (reranking_function self); [apply Hrerank | apply within_ret]. }
  cbv zeta.
  apply (within_bind_le L L); [apply generate_answer_within | intro ans | lia].
  apply within_bind_after; [apply validate_answer_within | intro verdict].
  apply within_ret.
Qed.

(** The loop makes at most five gateway calls for each pass it adds. *)
Lemma process_loop_within query ch kr r :
  forall (fuel : nat) (st : LoopState) (tr : trace),
    (Z.to_nat (max_iterations self - ls_iteration st) <= fuel)%nat ->
    exists st' calls,
      process_loop E self fuel query collection_names ch k kr r st tr
      = Some (Ok st', (tr ++ calls)%list)
      /\ ls_iteration st <= ls_iteration st'
      /\ Z.of_nat (cost c calls) <= 5 * Z.of_nat L * (ls_iteration st' - ls_iteration st).
Proof.
  induction fuel as [|fuel IH]; intros st tr Hfuel.
  - exists st, []. rewrite app_nil_r. cbn [process_loop].
    destruct (ls_iteration st <? max_iterations self) eqn:Hlt.
    + apply Z.ltb_lt in Hlt. lia.
    + split; [reflexivity|]. cbn. lia.
  - cbn [process_loop].
    destruct (ls_iteration st <? max_iterations self) eqn:Hlt.
    2:{ exists st, []. rewrite app_nil_r. split; [reflexivity|]. cbn. lia. }
    apply Z.ltb_lt in Hlt.
    destruct (attempt_ok E self collection_names ch k kr r (ls_current_query st) tr)
      as (a & tr1 & Hatt).
    destruct (attempt_within ch kr r (ls_current_query st) tr) as (o & calls1 & Hatt' & Hc1).
    rewrite Hatt in Hatt'. injection Hatt' as _ ->. rewrite Hatt.
    destruct (truthy (is_valid (att_validation a))).
    + eexists _, calls1. split; [reflexivity|]. cbn [ls_iteration]. lia.
    + destruct (ls_iteration st + 1 <? max_iterations self) eqn:Hmore.
      * apply Z.ltb_lt in Hmore.
        destruct (rewrite_query_ok E query (att_answer a) (att_validation a) ch
                    (tr ++ calls1)%list) as (q' & tr2 & Hrw).
        destruct (rewrite_query_within query (att_answer a) (att_validation a) ch
                    (tr ++ calls1)%list) as (o2 & calls2 & Hrw' & Hc2).
        rewrite Hrw in Hrw'. injection Hrw' as _ ->. rewrite Hrw.
        match goal with
        | |- context [process_loop _ _ _ _ _ _ _ _ _ ?s ?t] =>
            destruct (IH s t) as (st' & calls3 & -> & Hit & Hc3); [cbn; lia|]
        end.
        cbn [ls_iteration] in *.
        exists st', (calls1 ++ calls2 ++ calls3)%list.
        rewrite !app_assoc. split; [reflexivity|]. split; [lia|].
        rewrite <- !app_assoc, !cost_app. nia.
      * match goal with
        | |- context [process_loop _ _ _ _ _ _ _ _ _ ?s ?t] =>
            destruct (IH s t) as (st' & calls3 & -> & Hit & Hc3); [cbn; lia|]
        end.
        cbn [ls_iteration] in *.
        exists st', (calls1 ++ calls3)%list.
        rewrite !app_assoc. split; [reflexivity|]. split; [lia|].
        rewrite cost_app. nia.
Qed.

(** [process] makes calls of total weight at most [5 * L] for each pass. *)
Lemma process_within query ch kr r tr :
  exists res calls,
    process E self query collection_names ch k kr r tr = Some (Ok res, (tr ++ calls)%list)
    /\ Z.of_nat (cost c calls) <= 5 * Z.of_nat L * iterations res.
Proof.
  destruct (process_loop_within query ch kr r (Z.to_nat (max_iterations self))
              (initial_state query) tr) as (st' & calls & Hloop & _ & Hc).
  { cbn. lia. }
  exists (final_result st'), calls. unfold process, process_with_attempts.
  rewrite Hloop. split; [reflexivity|]. cbn in *. lia.
Qed.
End CallBudget.

(** X5.  [process] makes at most five gateway calls for each pass it
    counts in [iterations] (analysis, tool planning, generation, validation
    and query rewriting), and it only appends to the history of calls. *)
Theorem X5_at_most_five_gateway_calls_per_attempt
    (E : Env) (self : Engine) (query : string) (collection_names : list string)
    (chat_history : list message) (k k_reranker : Z) (r : Q) (tr : trace) :
  exists res calls,
    process E self query collection_names chat_history k k_reranker r tr
    = Some (Ok res, (tr ++ calls)%list)
    /\ Z.of_nat (List.length (filter is_llm_call calls)) <= 5 * iterations res.
Proof.
  assert (Hllm : forall model messages, (llm_weight (EvLLM model messages) <= 1)%nat)
    by (intros; cbn; lia).
  destruct (process_within E self collection_names k llm_weight 1 Hllm
              (fun _ _ => eq_refl) (fun _ _ => eq_refl) (fun _ _ => eq_refl)
              (fun _ _ _ _ => eq_refl) query chat_history k_reranker r tr)
    as (res & calls & Hrun & Hcost).
  exists res, calls. split; [exact Hrun|]. rewrite <- cost_llm_weight. lia.
Qed.

(** X6.  [process] only calls what is configured: the gateway; listing and
    tool calls go to registered providers only; the scoring function is
    called only when there is one; the document store is queried only when
    collection names were given, with those names, the given [k] and in the
    mode that [ENABLE_RAG_HYBRID_SEARCH] selects. *)
Theorem X6_only_configured_collaborators_are_called
    (E : Env) (self : Engine) (query : string) (collection_names : list string)
    (chat_history : list message) (k k_reranker : Z) (r : Q) (tr : trace) :
  exists res calls,
    process E self query collection_names chat_history k k_reranker r tr
    = Some (Ok res, (tr ++ calls)%list)
    /\ Forall (fun ev => configured E self collection_names k ev = true) calls.
Proof.
  destruct (process_within E self collection_names k
              (unconfigured_weight E self collection_names k) 0) with
    (query := query) (ch := chat_history) (kr := k_reranker) (r := r) (tr := tr)
    as (res & calls & Hrun & Hcost).
  - intros model messages. cbn. lia.
  - intros Hf sentences. unfold unconfigured_weight. cbn.
    destruct (reranking_function self); [reflexivity | now elim Hf].
  - intros Hcn queries. unfold unconfigured_weight. cbn.
    destruct collection_names as [|n names]; [now elim Hcn|].
    rewrite Bool.eqb_reflx, Z.eqb_refl.
    destruct (list_eq_dec string_dec (n :: names) (n :: names)) as [_|Hne];
      [reflexivity | now elim Hne].
  - intros s Hs. unfold unconfigured_weight. cbn. now rewrite Hs.
  - intros s tool_name arguments Hs. unfold unconfigured_weight. cbn. now rewrite Hs.
  - exists res, calls. split; [exact Hrun|].
    assert (Hzero : cost (unconfigured_weight E self collection_names k) calls = 0%nat)
      by lia.
    eapply Forall_impl; [|apply (cost_zero _ _ Hzero)].
    intros ev. unfold unconfigured_weight.
    destruct (configured E self collection_names k ev); [reflexivity | discriminate].
Qed.

(** ** What the stages return *)

Lemma ensures_ret {A : Type} (P : A -> Prop) (a : A) : P a -> ensures P (ret a).
Proof. intros HP tr a' tr' [= <- _]. exact HP. Qed.

Lemma ensures_lift {A : Type} (P : A -> Prop) (o : outcome A) :
  (forall a, o = Ok a -> P a) -> ensures P (lift o).
Proof. intros HP tr a tr' [= -> _]. now apply HP. Qed.

Lemma ensures_call {A : Type} (P : A -> Prop) (ev : event) (oracle : trace -> outcome A) :
  (forall tr a, oracle tr = Ok a -> P a) -> ensures P (call ev oracle).
Proof. intros HP tr a tr' [= Ho _]. eapply HP, Ho. Qed.

Lemma ensures_bind {A B : Type} (Q : A -> Prop) (P : B -> Prop) (m : M A) (k : A -> M B) :
  ensures Q m -> (forall a, Q a -> ensures P (k a)) -> ensures P (bind m k).
Proof.
  intros Hm Hk tr b tr'. unfold bind.
  destruct (m tr) as [[a|e] tr1] eqn:Hrun; [|discriminate].
  apply (Hk a (Hm _ _ _ Hrun)).
Qed.

Lemma ensures_bind_any {A B : Type} (P : B -> Prop) (m : M A) (k : A -> M B) :
  (forall a, ensures P (k a)) -> ensures P (bind m k).
Proof.
  intros Hk. apply (ensures_bind (fun _ => True)); [intros ? ? ? ?; exact I | auto].
Qed.

Lemma ensures_try_except {A : Type} (P : A -> Prop) (body : M A) (handler : exn -> M A) :
  ensures P body -> (forall e, ensures P (handler e)) -> ensures P (try_except body handler).
Proof.
  intros Hb Hh tr a tr'. unfold try_except.
  destruct (body tr) as [[a0|e] tr1] eqn:Hrun.
  - intros [= <- <-]. eapply Hb, Hrun.
  - apply Hh.
Qed.

Lemma ensures_try_except_json {A : Type} (P : A -> Prop) (body handler : M A) :
  ensures P body -> ensures P handler -> ensures P (try_except_json body handler).
Proof.
  intros Hb Hh tr a tr'. unfold try_except_json.
  destruct (body tr) as [[a0|e] tr1] eqn:Hrun.
  - intros [= <- <-]. eapply Hb, Hrun.
  - destruct (is_json_decode_error e); [apply Hh | discriminate].
Qed.

(** A total stage that ensures [P] returns a value that satisfies [P]. *)
Lemma always_ok_ensures {A : Type} (P : A -> Prop) (m : M A) (tr : trace) :
  always_ok m -> ensures P m -> exists a tr', m tr = (Ok a, tr') /\ P a.
Proof.
  intros Hok HP. destruct (Hok tr) as (a & tr' & Hrun).
  exists a, tr'. split; [exact Hrun | eapply HP, Hrun].
Qed.

(** X8.  [rewrite_query] always returns a text, and makes at most the one
    gateway call.  It returns the original query when the task model
    cannot be looked up (then no call is made), when the gateway call
    raises, when the response has no readable content, and when the content
    is empty or is not a text.  When the content of the response is a
    non-empty text, it returns that text without the whitespace at its two
    ends (stated for a content of ASCII characters, on which [strip] is the
    method of Python). *)
Theorem X8_rewritten_query_is_original_or_stripped_response
    (E : Env) (original_query : string) (a : pyval) (v : AnswerValidationResult)
    (ch : list message) (tr : trace) :
  exists s calls,
    rewrite_query E original_query a v ch tr = (Ok (PStr s), (tr ++ calls)%list)
    /\ match get_task_model_id E (config_MODEL E) with
       | Raise _ => calls = [] /\ s = original_query
       | Ok model =>
           exists messages,
             calls = [EvLLM model messages]
             /\ match obind (generate_chat_completion E tr model messages)
                            response_content with
                | Ok (PStr content) =>
                    if String.eqb content EmptyString then s = original_query
                    else is_ascii_text content = true -> s = strip content
                | _ => s = original_query
                end
       end.
Proof.
  unfold rewrite_query, try_except, bind, lift, ret, _call_llm, call.
  fold (_get_task_model_id E). unfold _get_task_model_id.
  destruct (get_task_model_id E (config_MODEL E)) as [model|e].
  2:{ exists original_query, []. rewrite app_nil_r. repeat split. }
  match goal with
  | |- context [generate_chat_completion E tr model ?msgs] =>
      set (messages := msgs);
      destruct (generate_chat_completion E tr model messages) as [response|e] eqn:Hresp
  end.
  2:{ eexists _, _. split; [reflexivity|]. exists messages. split; [reflexivity|].
      rewrite Hresp. reflexivity. }
  destruct (response_content response) as [content|e] eqn:Hcontent.
  2:{ eexists _, _. split; [reflexivity|]. exists messages. split; [reflexivity|].
      rewrite Hresp. cbn [obind]. rewrite Hcontent. reflexivity. }
  destruct content as [| | | |text| |]; cbn [truthy];
    try match goal with
        | |- context [if ?b then _ else _] => destruct b eqn:Hb
        end;
    cbn [as_str];
    eexists _, _; (split; [reflexivity|]); exists messages; (split; [reflexivity|]);
    rewrite Hresp; cbn [obind]; rewrite Hcontent; try reflexivity.
  - apply negb_true_iff in Hb. rewrite Hb. intros _. reflexivity.
  - apply negb_false_iff in Hb. rewrite Hb. reflexivity.
Qed.

(** X10.  When the document store fails on every query, or when no
    collection name is given, a pass still completes, with no sources. *)
Theorem X10_retrieval_failure_leaves_the_attempt_without_sources
    (E : Env) (self : Engine) (collection_names : list string)
    (ch : list message) (k k_reranker : Z) (r : Q) (q : pyval) (tr : trace) :
  collection_names = []
  \/ ((forall tr0 names queries k0 kr0 r0,
          exists e, query_collection_with_hybrid_search E tr0 names queries k0 kr0 r0
                    = Raise e)
      /\ (forall tr0 names queries k0,
             exists e, query_collection E tr0 names queries k0 = Raise e)) ->
  exists a tr',
    attempt E self collection_names ch k k_reranker r q tr = (Ok a, tr')
    /\ att_sources a = [].
Proof.
  intros Hstore. apply always_ok_ensures; [apply attempt_ok|].
  unfold attempt. apply ensures_bind_any. intros analysis. cbv zeta.
  apply ensures_bind_any. intros tools.
  apply (ensures_bind (fun found => found = [])).
  - destruct Hstore as [-> | [Hhybrid Hplain]].
    + rewrite andb_false_r. now apply ensures_ret.
    + destruct (_ && _); [|now apply ensures_ret].
      apply ensures_try_except; [|intros e; now apply ensures_ret].
      destruct (ENABLE_RAG_HYBRID_SEARCH E); apply ensures_call; intros tr0 found Hfound.
      * destruct (Hhybrid tr0 collection_names
                    [if truthy (rewritten_query analysis)
                        && negb (py_eqb (rewritten_query analysis) q)
                     then rewritten_query analysis else q] k k_reranker r) as [e He].
        congruence.
      * destruct (Hplain tr0 collection_names
                    [if truthy (rewritten_query analysis)
                        && negb (py_eqb (rewritten_query analysis) q)
                     then rewritten_query analysis else q] k) as [e He].
        congruence.
  - intros found ->.
    apply (ensures_bind (fun ranked => ranked = [])); [now apply ensures_ret|].
    intros ranked ->. repeat (apply ensures_bind_any; intro).
    now apply ensures_ret.
Qed.

Lemma X10_retrieval_failure_leaves_the_attempt_without_sources_witness :
  exists a tr',
    attempt dead_gateway_env (engine_of_iterations 3) ["docs"] [] 5 3 (7 # 10)
            (PStr "q") []
    = (Ok a, tr')
    /\ att_sources a = [].
Proof.
  apply (X10_retrieval_failure_leaves_the_attempt_without_sources
           dead_gateway_env (engine_of_iterations 3) ["docs"] [] 5 3 (7 # 10) (PStr "q") []).
  right. split; intros; eexists; reflexivity.
Defined.

(** ** A gateway that is down *)

Section GatewayDown.
Variable E : Env.
Variable e : exn.
Variable model : string.
Hypothesis task_model : get_task_model_id E (config_MODEL E) = Ok model.
Hypothesis gateway_down :
  forall tr m messages, generate_chat_completion E tr m messages = Raise e.

Lemma interact_gateway_down q clients :
  ensures (fun res => res = []) (interact_with_mcp_servers E q clients).
Proof.
  unfold interact_with_mcp_servers. destruct clients as [|p rest]; [now apply ensures_ret|].
  apply ensures_try_except; [|intros; now apply ensures_ret].
  apply ensures_bind_any. intros m. apply ensures_bind_any. intros available.
  destruct available; [now apply ensures_ret|]. cbv zeta.
  apply (ensures_bind (fun _ => False)); [|intros ? []].
  apply ensures_call. intros tr a Ha. rewrite gateway_down in Ha. discriminate.
Qed.

Lemma generate_answer_gateway_down q context ch :
  ensures (fun ans => ans = PStr ("Error generating answer: " ++ exn_msg e))
          (generate_answer E q context ch []).
Proof.
  intros tr ans tr'. unfold generate_answer, try_except, bind, ret, lift, _call_llm, call.
  fold (_get_task_model_id E). unfold _get_task_model_id. rewrite task_model.
  destruct (config_MODEL E) as [m|]; [destruct (String.eqb m EmptyString)|];
    rewrite gateway_down; now intros [= <- _].
Qed.

Lemma validate_answer_gateway_down q a ch :
  ensures (fun v => is_valid v = PBool true /\ av_confidence v = PFloat (5 # 10))
          (validate_answer E q a ch).
Proof.
  intros tr v tr'. unfold validate_answer, try_except, bind, ret, lift, _call_llm, call.
  fold (_get_task_model_id E). unfold _get_task_model_id. rewrite task_model.
  rewrite gateway_down. intros [= <- _]. split; reflexivity.
Qed.

Lemma attempt_gateway_down self cn ch k kr r q :
  ensures (fun a => att_answer a = PStr ("Error generating answer: " ++ exn_msg e)
                    /\ att_mcp_results a = []
                    /\ is_valid (att_validation a) = PBool true)
          (attempt E self cn ch k kr r q).
Proof.
  unfold attempt. apply ensures_bind_any. intros analysis. cbv zeta.
  apply (ensures_bind (fun tools => tools = [])).
  { destruct (_ && _); [apply interact_gateway_down | now apply ensures_ret]. }
  intros tools ->. apply ensures_bind_any. intros found. apply ensures_bind_any. intros ranked.
  eapply ensures_bind; [apply generate_answer_gateway_down | intros ans ->].
  eapply ensures_bind; [apply validate_answer_gateway_down | intros v [Hv _]].
  apply ensures_ret. cbn. auto.
Qed.
End GatewayDown.

(** X11.  When every gateway call raises (and the task model can be
    looked up), [process] with [max_iterations >= 1] stops after one pass:
    the analysis, the generator and the validator each fall back on their
    defaults, so the text of the generator's error is returned as the
    answer, judged valid, with no tool results. *)
Theorem X11_dead_gateway_is_answered_after_one_attempt
    (E : Env) (self : Engine) (query : string) (collection_names : list string)
    (chat_history : list message) (k k_reranker : Z) (r : Q) (tr : trace)
    (e : exn) (model : string) :
  1 <= max_iterations self ->
  get_task_model_id E (config_MODEL E) = Ok model ->
  (forall tr0 m messages, generate_chat_completion E tr0 m messages = Raise e) ->
  exists res a tr',
    process_with_attempts E self query collection_names chat_history k k_reranker r tr
    = Some (Ok (res, [a]), tr')
    /\ iterations res = 1
    /\ answer res = PStr ("Error generating answer: " ++ exn_msg e)
    /\ mcp_results res = []
    /\ is_valid (att_validation a) = PBool true.
Proof.
  intros Hmax Hmodel Hdown.
  destruct (always_ok_ensures _ _ tr
              (attempt_ok E self collection_names chat_history k k_reranker r (PStr query))
              (attempt_gateway_down E e model Hmodel Hdown self collection_names
                 chat_history k k_reranker r (PStr query)))
    as (a & tr' & Hrun & Hans & Hmcp & Hvalid).
  exists (mk_ProcessResult (att_answer a) (att_sources a) [] 1 (att_query a)), a, tr'.
  unfold process_with_attempts.
  destruct (Z.to_nat (max_iterations self)) as [|fuel] eqn:Hfuel; [lia|].
  cbn [process_loop initial_state ls_iteration ls_current_query ls_attempts].
  replace (0 <? max_iterations self) with true by (symmetry; apply Z.ltb_lt; lia).
  rewrite Hrun, Hvalid. cbn [truthy app final_result ls_best_answer ls_best_sources
                              ls_mcp_results ls_iteration ls_current_query ls_attempts].
  rewrite Hans, Hmcp. cbn. repeat split.
Qed.

Lemma X11_dead_gateway_is_answered_after_one_attempt_witness :
  exists res a tr',
    process_with_attempts dead_gateway_env (engine_of_iterations 3) "q" ["docs"] []
      5 3 (7 # 10) []
    = Some (Ok (res, [a]), tr')
    /\ iterations res = 1
    /\ answer res = PStr "Error generating answer: gateway down"
    /\ mcp_results res = []
    /\ is_valid (att_validation a) = PBool true.
Proof.
  apply (X11_dead_gateway_is_answered_after_one_attempt dead_gateway_env
           (engine_of_iterations 3) "q" ["docs"] [] 5 3 (7 # 10) []
           (mk_exn OtherError "gateway down") "task"); try reflexivity.
  cbn. lia.
Defined.

(** ** More on the tool orchestrator *)

Lemma replay_tool_calls_app (q : pyval) (clients : list (string * McpClient))
    (a b : trace) :
  forall tr,
    replay_tool_calls q clients tr (a ++ b)%list
    = (replay_tool_calls q clients tr a
       ++ replay_tool_calls q clients (tr ++ a)%list b)%list.
Proof.
  induction a as [|ev a IH]; intros tr.
  - cbn. now rewrite app_nil_r.
  - cbn [app replay_tool_calls]. rewrite IH, <- !app_assoc. reflexivity.
Qed.

Lemma replay_tool_calls_quiet (q : pyval) (clients : list (string * McpClient))
    (calls : trace) :
  forall tr, cost tool_weight calls = 0%nat -> replay_tool_calls q clients tr calls = [].
Proof.
  induction calls as [|ev calls IH]; intros tr Hc; [reflexivity|].
  change (cost tool_weight (ev :: calls))
    with (tool_weight ev + cost tool_weight calls)%nat in Hc.
  cbn [replay_tool_calls]. rewrite IH by lia.
  destruct ev; try reflexivity. cbn in Hc. lia.
Qed.

(** The loop of the planned tools returns the results that its calls give,
    after the results it started with. *)
Lemma execute_tools_replay (q : pyval) (clients : list (string * McpClient))
    (plan : list pyval) :
  forall results tr,
    exists calls,
      execute_tools q clients plan results tr
      = (Ok (results ++ replay_tool_calls q clients tr calls)%list, (tr ++ calls)%list).
Proof.
  induction plan as [|tool_info rest IH]; intros results tr.
  - exists []. cbn. now rewrite !app_nil_r.
  - assert (Hstop : exists calls,
               ret results tr
               = (Ok (results ++ replay_tool_calls q clients tr calls)%list,
                  (tr ++ calls)%list))
      by (exists []; cbn; now rewrite !app_nil_r).
    cbn [execute_tools].
    destruct (py_get tool_info "server_id" PNone) as [server_id|]; [|exact Hstop].
    destruct (py_get tool_info "tool_name" PNone) as [tool_name|]; [|exact Hstop].
    destruct (py_get tool_info "arguments" (PDict [])) as [arguments|]; [|exact Hstop].
    destruct (lookup_client server_id clients) as [[client|]|] eqn:Hlook;
      [|apply IH | exact Hstop].
    destruct server_id; try discriminate. cbn in Hlook. injection Hlook as Hlook.
    destruct (call_tool client tr tool_name arguments) as [value|e] eqn:Hcall;
      match goal with
      | |- context [execute_tools q clients rest ?r ?t] =>
          destruct (IH r t) as (calls & ->)
      end;
      exists (EvCallTool (PStr s) tool_name arguments :: calls);
      cbn [replay_tool_calls]; rewrite Hlook, Hcall, <- !app_assoc; reflexivity.
Qed.

Lemma accounts_for_ret_nil (q : pyval) (clients : list (string * McpClient)) :
  accounts_for q clients (ret []).
Proof. intros tr. exists (Ok []), []. rewrite app_nil_r. split; reflexivity. Qed.

Lemma accounts_for_bind {A : Type} (q : pyval) (clients : list (string * McpClient))
    (m : M A) (k : A -> M (list pyval)) :
  within tool_weight 0 m -> (forall a, accounts_for q clients (k a)) ->
  accounts_for q clients (bind m k).
Proof.
  intros Hm Hk tr. unfold bind. destruct (Hm tr) as ([a|e] & calls & -> & Hc).
  - destruct (Hk a (tr ++ calls)%list) as (o & calls' & -> & Ho).
    exists o, (calls ++ calls')%list. rewrite app_assoc. split; [reflexivity|].
    rewrite replay_tool_calls_app, (replay_tool_calls_quiet q clients calls) by lia.
    exact Ho.
  - exists (Raise e), calls. split; [reflexivity|].
    apply replay_tool_calls_quiet. lia.
Qed.

Lemma accounts_for_try_except (q : pyval) (clients : list (string * McpClient))
    (body : M (list pyval)) :
  accounts_for q clients body ->
  accounts_for q clients (try_except body (fun _ => ret [])).
Proof.
  intros Hb tr. unfold try_except. destruct (Hb tr) as ([res|e] & calls & -> & Ho).
  - exists (Ok res), calls. split; [reflexivity | exact Ho].
  - exists (Ok []), calls. split; [reflexivity | now rewrite Ho].
Qed.

Lemma accounts_for_execute_tools (q : pyval) (clients : list (string * McpClient))
    (plan : list pyval) :
  accounts_for q clients (execute_tools q clients plan []).
Proof.
  intros tr. destruct (execute_tools_replay q clients plan [] tr) as (calls & ->).
  exists (Ok (replay_tool_calls q clients tr calls)), calls. split; reflexivity.
Qed.

(** X12.  The tool results that the orchestrator returns are exactly the
    results of the tool calls it has made that returned, in the order of
    the calls: each is the dict of provider id, tool name, returned value
    and query of one such call; a call that raised gives no result, and
    nothing else does. *)
Theorem X12_tool_results_are_those_of_the_calls_that_returned
    (E : Env) (q : pyval) (clients : list (string * McpClient)) (tr : trace) :
  exists res calls,
    interact_with_mcp_servers E q clients tr = (Ok res, (tr ++ calls)%list)
    /\ res = replay_tool_calls q clients tr calls.
Proof.
  assert (H : accounts_for q clients (interact_with_mcp_servers E q clients)).
  { unfold interact_with_mcp_servers.
    destruct clients as [|p rest] eqn:Hcl; [apply accounts_for_ret_nil|]. rewrite <- Hcl.
    apply accounts_for_try_except.
    apply accounts_for_bind; [apply within_lift | intro m].
    apply accounts_for_bind; [|intro available].
    { apply (list_available_tools_within tool_weight clients); auto.
      intros s. apply In_registered. }
    destruct available; [apply accounts_for_ret_nil|]. cbv zeta.
    apply accounts_for_bind; [apply within_call; cbn; lia | intro response].
    apply accounts_for_bind; [apply within_lift | intro content].
    apply accounts_for_bind; [quiet | intro selection].
    destruct selection; [|apply accounts_for_ret_nil].
    apply accounts_for_bind; [apply within_lift | intro tools].
    apply accounts_for_bind; [apply within_lift | intro plan].
    apply accounts_for_execute_tools. }
  destruct (H tr) as (o & calls & Hrun & Ho).
  destruct (interact_with_mcp_servers_ok E q clients tr) as (res & tr' & Hok).
  rewrite Hok in Hrun. injection Hrun as <- ->.
  now exists res, calls.
Qed.

Lemma within_bind_ensures {A B : Type} (c : event -> nat) (n1 n2 : nat) (Q : A -> Prop)
    (m : M A) (f : A -> M B) :
  within c n1 m -> ensures Q m -> (forall a, Q a -> within c n2 (f a)) ->
  within c (n1 + n2) (bind m f).
Proof.
  intros Hm HQ Hf tr. unfold bind. destruct (Hm tr) as ([a|e] & calls & Hrun & Hc); rewrite Hrun.
  - destruct (Hf a (HQ _ _ _ Hrun) (tr ++ calls)%list) as (o & calls' & -> & Hc').
    exists o, (calls ++ calls')%list. rewrite app_assoc, cost_app. split; [reflexivity | lia].
  - exists (Raise e), calls. split; [reflexivity | lia].
Qed.

(** X13.  When the plan cannot be decoded (the JSON decoder rejects the
    text between the braces, or there is no opening brace), the orchestrator
    returns no result and calls no tool. *)
Theorem X13_undecodable_plan_runs_no_tool
    (E : Env) (q : pyval) (clients : list (string * McpClient)) (tr : trace) :
  (forall text, json_loads E text = None) ->
  exists calls,
    interact_with_mcp_servers E q clients tr = (Ok [], (tr ++ calls)%list)
    /\ Forall (fun ev => is_tool_call ev = false) calls.
Proof.
  intros Hjson.
  assert (Hsel : forall content : pyval,
             ensures (fun sel : option pyval => sel = None)
               (try_except_json
                  (text <- lift (as_str content "find") ;;
                   if negb (find text "{" =? -1) && negb (rfind text "}" + 1 =? -1)
                   then parsed <- lift (loads E (slice text (find text "{")
                                                       (rfind text "}" + 1))) ;;
                        ret (Some parsed)
                   else ret None)
                  (ret None))).
  { intros content. apply ensures_try_except_json; [|now apply ensures_ret].
    apply ensures_bind_any. intros text.
    destruct (_ && _); [|now apply ensures_ret].
    apply (ensures_bind (fun _ => False)); [|intros ? []].
    apply ensures_lift. unfold loads. rewrite Hjson. discriminate. }
  assert (Hres : ensures (fun res => res = []) (interact_with_mcp_servers E q clients)).
  { unfold interact_with_mcp_servers.
    destruct clients as [|p rest] eqn:Hcl; [now apply ensures_ret|]. rewrite <- Hcl.
    apply ensures_try_except; [|intros; now apply ensures_ret].
    apply ensures_bind_any. intros m. apply ensures_bind_any. intros available.
    destruct available; [now apply ensures_ret|]. cbv zeta.
    do 2 (apply ensures_bind_any; intro).
    eapply ensures_bind; [apply Hsel | intros sel ->]. now apply ensures_ret. }
  assert (Hcalls : within tool_weight 0 (interact_with_mcp_servers E q clients)).
  { unfold interact_with_mcp_servers.
    destruct clients as [|p rest] eqn:Hcl; [apply within_ret|]. rewrite <- Hcl.
    apply within_try_except_quiet; [|intro; apply within_ret].
    apply within_bind_before; [apply within_lift | intro m].
    apply within_bind_before; [|intro available].
    { apply (list_available_tools_within tool_weight clients); auto.
      intros s. apply In_registered. }
    destruct available; [apply within_ret|]. cbv zeta.
    apply within_bind_before; [apply within_call; cbn; lia | intro response].
    apply within_bind_before; [apply within_lift | intro content].
    apply (within_bind_ensures tool_weight 0 0 (fun sel => sel = None));
      [quiet | apply Hsel | intros sel ->; apply within_ret]. }
  destruct (Hcalls tr) as (o & calls & Hrun & Hcost).
  destruct (interact_with_mcp_servers_ok E q clients tr) as (res & tr' & Hok).
  pose proof (Hres _ _ _ Hok) as ->.
  rewrite Hok in Hrun. injection Hrun as _ ->.
  exists calls. split; [exact Hok|].
  assert (Hzero : cost tool_weight calls = 0%nat) by lia.
  eapply Forall_impl; [|apply (cost_zero _ _ Hzero)].
  intros ev. unfold tool_weight. destruct (is_tool_call ev); [discriminate | reflexivity].
Qed.

Lemma X13_undecodable_plan_runs_no_tool_witness :
  exists calls,
    interact_with_mcp_servers (free_text_env "{call lookup}") (PStr "q")
      [("s1", lookup_client_sample)] []
    = (Ok [], ([] ++ calls)%list)
    /\ Forall (fun ev => is_tool_call ev = false) calls.
Proof.
  apply (X13_undecodable_plan_runs_no_tool (free_text_env "{call lookup}") (PStr "q")
           [("s1", lookup_client_sample)] []).
  reflexivity.
Defined.

(** The orchestrator on a plan with a registered and an unregistered
    provider: one result, from the registered one. *)
Example interact_with_mcp_servers_example :
  fst (interact_with_mcp_servers planning_env (PStr "q") [("s1", lookup_client_sample)] [])
  = Ok [PDict [("server_id", PStr "s1"); ("tool_name", PStr "lookup");
               ("result", PStr "found"); ("query", PStr "q")]].
Proof. reflexivity. Qed.

(** ** The keyword fallback of the analysis *)

Lemma find_from_absent (sub s : string) (i : Z) :
  contains sub s = false -> find_from sub s i = -1.
Proof.
  revert i. induction s as [|ch s IH]; intros i; cbn [contains find_from];
    intros H; apply orb_false_elim in H; destruct H as [Hp Hc]; rewrite Hp.
  - reflexivity.
  - apply IH, Hc.
Qed.

(** X14.  When the response to the analysis has no opening brace, the
    analysis is read off its words: additional data is needed exactly when
    the lower-cased text contains [need], [require], [yes] or [true] (also
    inside a longer word), the query is kept as it is, the reasoning is the
    response text and the confidence is 0.6. *)
Theorem X14_analysis_falls_back_on_keywords
    (E : Env) (q : pyval) (ch : list message) (tr : trace) (model text : string) :
  get_task_model_id E (config_MODEL E) = Ok model ->
  (forall messages, generate_chat_completion E tr model messages = Ok (chat_response text)) ->
  contains "{" text = false ->
  exists tr',
    analyze_query E q ch tr
    = (Ok (mk_QueryAnalysisResult
             (PBool (any_word_in ["need"; "require"; "yes"; "true"] (lower text)))
             q (PStr text) (PFloat (6 # 10))), tr').
Proof.
  intros Hmodel Hgateway Hbrace.
  unfold analyze_query, try_except, try_except_json, bind, lift, ret, _call_llm, call.
  fold (_get_task_model_id E). unfold _get_task_model_id. rewrite Hmodel, Hgateway.
  cbn -[find rfind slice lower any_word_in with_history analysis_system_prompt].
  unfold find. rewrite (find_from_absent _ _ _ Hbrace).
  cbn -[rfind slice lower any_word_in with_history analysis_system_prompt].
  eexists. reflexivity.
Qed.

Lemma X14_analysis_falls_back_on_keywords_witness :
  exists tr',
    analyze_query (free_text_env "That is REQUIRED.") (PStr "q") [] []
    = (Ok (mk_QueryAnalysisResult (PBool true) (PStr "q") (PStr "That is REQUIRED.")
             (PFloat (6 # 10))), tr').
Proof.
  apply (X14_analysis_falls_back_on_keywords (free_text_env "That is REQUIRED.")
           (PStr "q") [] [] "task" "That is REQUIRED."); reflexivity.
Defined.

(** ** The context handed to the generator *)

Lemma top_documents_bound (srcs : list Source) :
  (List.length
     (flat_map (fun source => match document source with
                              | Some docs => firstn 2 docs
                              | None => []
                              end) srcs)
   <= 2 * List.length srcs)%nat.
Proof.
  induction srcs as [|s srcs IH]; cbn [flat_map List.length]; [lia|].
  rewrite length_app.
  assert ((List.length (match document s with
                        | Some docs => firstn 2 docs
                        | None => []
                        end) <= 2)%nat).
  { destruct (document s) as [docs|]; [apply firstn_le_length | cbn; lia]. }
  lia.
Qed.

(** X15.  The context is built from at most two documents (the first two)
    of each of the first [k_reranker] sources, joined by blank lines: it
    has at most [2 * k_reranker] parts, each a document of one of these
    sources. *)
Theorem X15_context_takes_two_documents_of_the_top_sources
    (srcs : list Source) (k_reranker : Z) :
  0 <= k_reranker ->
  exists parts,
    build_context srcs k_reranker = join (nl ++ nl) parts
    /\ (List.length parts <= 2 * Z.to_nat k_reranker)%nat
    /\ (List.length parts <= 2 * List.length srcs)%nat
    /\ Forall (fun part =>
                 exists src docs,
                   In src (firstn (Z.to_nat k_reranker) srcs)
                   /\ document src = Some docs
                   /\ In part (firstn 2 docs)) parts.
Proof.
  intros Hk. unfold build_context, py_take.
  replace (0 <=? k_reranker) with true by (symmetry; apply Z.leb_le; exact Hk).
  destruct srcs as [|s0 srcs'].
  - exists []. repeat split; cbn; auto; lia.
  - eexists. split; [reflexivity|].
    pose proof (top_documents_bound (firstn (Z.to_nat k_reranker) (s0 :: srcs'))) as Hb.
    pose proof (firstn_le_length (Z.to_nat k_reranker) (s0 :: srcs')) as H1.
    pose proof (length_firstn (Z.to_nat k_reranker) (s0 :: srcs')) as H2.
    split; [lia|]. split; [lia|].
    apply Forall_forall. intros part Hin. apply in_flat_map in Hin.
    destruct Hin as (src & Hsrc & Hpart). exists src.
    destruct (document src) as [docs|]; [|destruct Hpart].
    exists docs. auto.
Qed.

Lemma X15_context_takes_two_documents_of_the_top_sources_witness :
  exists parts,
    build_context [source_of ["a"; "b"; "c"] []; source_of ["d"] []; source_of ["e"] []] 2
    = join (nl ++ nl) parts
    /\ (List.length parts <= 2 * Z.to_nat 2)%nat
    /\ (List.length parts <= 2 * 3)%nat
    /\ Forall (fun part =>
                 exists src docs,
                   In src (firstn (Z.to_nat 2)
                             [source_of ["a"; "b"; "c"] []; source_of ["d"] [];
                              source_of ["e"] []])
                   /\ document src = Some docs
                   /\ In part (firstn 2 docs)) parts.
Proof.
  apply (X15_context_takes_two_documents_of_the_top_sources
           [source_of ["a"; "b"; "c"] []; source_of ["d"] []; source_of ["e"] []] 2).
  lia.
Defined.

(** ** The keyword fallback of the validator, in full *)

Lemma prefix_split (sub s : string) :
  prefix sub s = true -> exists post, s = sub ++ post.
Proof.
  revert s. induction sub as [|c sub IH]; intros s H.
  - now exists s.
  - destruct s as [|c' s]; cbn in H; [discriminate|].
    destruct (ascii_dec c c') as [<-|]; [|discriminate].
    destruct (IH s H) as [post ->]. now exists post.
Qed.

Lemma contains_split (sub s : string) :
  contains sub s = true -> exists pre post, s = pre ++ sub ++ post.
Proof.
  induction s as [|c s IH]; cbn [contains]; intros H; apply orb_true_iff in H.
  - destruct H as [H | H]; [|discriminate].
    destruct (prefix_split _ _ H) as [post ->]. now exists EmptyString, post.
  - destruct H as [H | H].
    + destruct (prefix_split _ _ H) as [post ->]. now exists EmptyString, post.
    + destruct (IH H) as (pre & post & ->). now exists (String c pre), post.
Qed.

Lemma append_assoc (a b c : string) : (a ++ b) ++ c = a ++ b ++ c.
Proof. induction a as [|x a IH]; cbn; [reflexivity | now rewrite IH]. Qed.

(** A text that contains [not relevant] contains [no]. *)
Lemma contains_not_relevant (t : string) :
  contains "not relevant" t = true -> contains "no" t = true.
Proof.
  intros H. destruct (contains_split _ _ H) as (pre & post & ->).
  change "not relevant" with ("no" ++ "t relevant").
  rewrite append_assoc. apply contains_app.
Qed.

(** X16.  The keyword fallback of the validator accepts by default: the
    verdict built from it is valid exactly when the lower-cased text
    contains none of [incorrect], [wrong], [false], [no] and [irrelevant]
    (the keyword [not relevant] never decides, since it contains [no]); in
    particular the empty text is judged valid. *)
Theorem X16_keyword_fallback_accepts_unless_a_negative_word_occurs (text : string) :
  exists result v,
    _parse_validation_from_text (PStr text) = Ok result
    /\ validation_of_result result = Ok v
    /\ is_valid v
       = PBool (negb (any_word_in ["incorrect"; "wrong"; "false"; "no"; "irrelevant"]
                                  (lower text)))
    /\ av_confidence v = PFloat (6 # 10).
Proof.
  unfold _parse_validation_from_text, as_str, obind, any_word_in. cbn [existsb].
  eexists _, _. split; [reflexivity|]. split; [reflexivity|].
  cbn [is_valid av_confidence AnswerValidationResult_init py_and truthy].
  split; [|reflexivity].
  pose proof (contains_not_relevant (lower text)) as Hnr.
  destruct (contains "incorrect" (lower text)), (contains "wrong" (lower text)),
    (contains "false" (lower text)), (contains "no" (lower text)),
    (contains "irrelevant" (lower text)), (contains "not relevant" (lower text));
    cbn; try reflexivity; discriminate (Hnr eq_refl).
Qed.

(** ** The span between the braces *)

Lemma length_append (a b : string) :
  String.length (a ++ b) = (String.length a + String.length b)%nat.
Proof. induction a as [|x a IH]; cbn; [reflexivity | now rewrite IH]. Qed.

Lemma prefix_single_head (c x : ascii) (s t : string) :
  prefix (String c EmptyString) (String x s) = prefix (String c EmptyString) (String x t).
Proof. cbn. destruct (ascii_dec c x); [now destruct s, t | reflexivity]. Qed.

Lemma find_from_single (c : ascii) (pre rest : string) (i : Z) :
  contains (String c EmptyString) pre = false ->
  find_from (String c EmptyString) (pre ++ String c rest) i
  = i + Z.of_nat (String.length pre).
Proof.
  revert i. induction pre as [|x pre IH]; intros i H.
  - cbn. destruct (ascii_dec c c) as [_|Hn]; [|now elim Hn].
    destruct rest; cbn; lia.
  - cbn [contains] in H. apply orb_false_elim in H. destruct H as [Hp Hc].
    change (String x pre ++ String c rest) with (String x (pre ++ String c rest)).
    cbn [find_from]. rewrite (prefix_single_head c x _ pre), Hp.
    rewrite (IH _ Hc). cbn [String.length]. lia.
Qed.

Lemma rfind_from_absent (sub s : string) (i best : Z) :
  contains sub s = false -> rfind_from sub s i best = best.
Proof.
  revert i. induction s as [|x s IH]; intros i; cbn [contains rfind_from];
    intros H; apply orb_false_elim in H; destruct H as [Hp Hc]; rewrite Hp.
  - reflexivity.
  - apply IH, Hc.
Qed.

Lemma rfind_from_single (c : ascii) (pre post : string) (i best : Z) :
  contains (String c EmptyString) post = false ->
  rfind_from (String c EmptyString) (pre ++ String c post) i best
  = i + Z.of_nat (String.length pre).
Proof.
  revert i best. induction pre as [|x pre IH]; intros i best H.
  - change (EmptyString ++ String c post) with (String c post). cbn [rfind_from].
    replace (prefix (String c EmptyString) (String c post)) with true.
    + rewrite (rfind_from_absent _ _ _ _ H). cbn. lia.
    + cbn. destruct (ascii_dec c c) as [_|Hn]; [now destruct post | now elim Hn].
  - change (String x pre ++ String c post) with (String x (pre ++ String c post)).
    cbn [rfind_from]. rewrite (IH _ _ H). cbn [String.length]. lia.
Qed.

Lemma substring_prefix (m post : string) :
  substring 0 (String.length m) (m ++ post) = m.
Proof.
  induction m as [|x m IH]; cbn.
  - now destruct post.
  - now rewrite IH.
Qed.

Lemma substring_middle (pre m post : string) :
  substring (String.length pre) (String.length m) (pre ++ m ++ post) = m.
Proof.
  induction pre as [|x pre IH]; cbn [String.length append substring].
  - apply substring_prefix.
  - exact IH.
Qed.

(** The text from the first opening brace to the last closing brace. *)
Lemma slice_between_braces (pre mid post : string) :
  contains "{" pre = false ->
  contains "}" post = false ->
  let text := pre ++ "{" ++ mid ++ "}" ++ post in
  find text "{" = Z.of_nat (String.length pre)
  /\ rfind text "}" + 1 = Z.of_nat (String.length pre + String.length ("{" ++ mid ++ "}"))
  /\ slice text (find text "{") (rfind text "}" + 1) = "{" ++ mid ++ "}".
Proof.
  intros Hpre Hpost text.
  assert (Hfind : find text "{" = Z.of_nat (String.length pre)).
  { unfold find, text. change ("{" ++ mid ++ "}" ++ post) with (String "{" (mid ++ "}" ++ post)).
    rewrite (find_from_single _ _ _ _ Hpre). lia. }
  assert (Hrfind : rfind text "}" + 1
                   = Z.of_nat (String.length pre + String.length ("{" ++ mid ++ "}"))).
  { unfold rfind, text.
    replace (pre ++ "{" ++ mid ++ "}" ++ post) with ((pre ++ "{" ++ mid) ++ String "}" post)
      by (now rewrite !append_assoc).
    rewrite (rfind_from_single _ _ _ _ _ Hpost).
    rewrite !length_append. cbn [String.length]. lia. }
  split; [exact Hfind|]. split; [exact Hrfind|].
  rewrite Hfind, Hrfind. unfold slice, text.
  rewrite Nat2Z.id.
  replace (Z.to_nat (Z.of_nat (String.length pre + String.length ("{" ++ mid ++ "}"))
                     - Z.of_nat (String.length pre)))
    with (String.length ("{" ++ mid ++ "}")) by lia.
  replace (pre ++ "{" ++ mid ++ "}" ++ post) with (pre ++ ("{" ++ mid ++ "}") ++ post)
    by (now rewrite !append_assoc).
  apply substring_middle.
Qed.

Lemma find_from_range (sub s : string) (i : Z) :
  0 <= i -> find_from sub s i = -1 \/ i <= find_from sub s i.
Proof.
  revert i. induction s as [|x s IH]; intros i Hi; cbn [find_from];
    destruct (prefix sub _); try (right; lia); try (now left).
  destruct (IH (i + 1)) as [H | H]; [lia | now left | right; lia].
Qed.

Lemma substring_zero (n : nat) (s : string) : substring n 0 s = EmptyString.
Proof.
  revert n. induction s as [|x s IH]; intros [|n]; cbn; try reflexivity. apply IH.
Qed.

(** X17.  When the response to the analysis holds an opening brace and,
    after it, a closing brace, the text from the first opening brace to
    the last closing brace (both included) is what is decoded, and the
    analysis is read from the decoded object: a missing
    [needs_additional_data] counts as true, a missing or empty
    [rewritten_query] leaves the query as it is, and the confidence
    defaults to 0.8. *)
Theorem X17_analysis_decodes_the_span_between_the_braces
    (E : Env) (q : pyval) (ch : list message) (tr : trace) (model : string)
    (pre mid post : string) (d : list (string * pyval)) :
  get_task_model_id E (config_MODEL E) = Ok model ->
  (forall messages,
      generate_chat_completion E tr model messages
      = Ok (chat_response (pre ++ "{" ++ mid ++ "}" ++ post))) ->
  contains "{" pre = false ->
  contains "}" post = false ->
  json_loads E ("{" ++ mid ++ "}") = Some (PDict d) ->
  exists tr',
    analyze_query E q ch tr
    = (Ok (mk_QueryAnalysisResult
             (match assoc_get "needs_additional_data" d with
              | Some v => v | None => PBool true end)
             (py_or (match assoc_get "rewritten_query" d with
                     | Some v => v | None => PNone end) q)
             (match assoc_get "reasoning" d with
              | Some v => v | None => PStr EmptyString end)
             (match assoc_get "confidence" d with
              | Some v => v | None => PFloat (8 # 10) end)), tr').
Proof.
  intros Hmodel Hgateway Hpre Hpost Hjson.
  destruct (slice_between_braces pre mid post Hpre Hpost) as (Hfind & Hrfind & Hslice).
  cbv zeta in *. remember (pre ++ "{" ++ mid ++ "}" ++ post) as text eqn:Htext.
  assert (Hc1 : (find text "{" =? -1) = false) by (apply Z.eqb_neq; lia).
  assert (Hc2 : (rfind text "}" + 1 =? -1) = false) by (apply Z.eqb_neq; lia).
  unfold analyze_query, try_except, try_except_json, bind, lift, ret, _call_llm, call.
  fold (_get_task_model_id E). unfold _get_task_model_id. rewrite Hmodel, Hgateway.
  cbn -[find rfind slice lower any_word_in with_history analysis_system_prompt].
  rewrite Hc1, Hc2, Hslice. unfold loads. rewrite Hjson.
  cbn -[with_history analysis_system_prompt].
  eexists. reflexivity.
Qed.

Lemma X17_analysis_decodes_the_span_between_the_braces_witness :
  exists tr',
    analyze_query decoding_env (PStr "q") [] []
    = (Ok (mk_QueryAnalysisResult (PBool true) (PStr "X") (PStr "r") (PFloat (9 # 10))),
       tr').
Proof.
  apply (X17_analysis_decodes_the_span_between_the_braces decoding_env (PStr "q") [] []
           "task" "Yes, more data. " "x" " Thanks."
           [("needs_additional_data", PBool true); ("rewritten_query", PStr "X");
            ("reasoning", PStr "r"); ("confidence", PFloat (9 # 10))]);
    reflexivity.
Defined.

(** X18.  When the response to the analysis holds no closing brace, what
    is handed to the decoder is the empty text; a decoder that rejects the
    empty text sends the analysis to the keyword fallback, whether or not
    the response holds an opening brace. *)
Theorem X18_analysis_without_closing_brace_falls_back
    (E : Env) (q : pyval) (ch : list message) (tr : trace) (model text : string) :
  get_task_model_id E (config_MODEL E) = Ok model ->
  (forall messages, generate_chat_completion E tr model messages = Ok (chat_response text)) ->
  contains "}" text = false ->
  json_loads E EmptyString = None ->
  exists tr',
    analyze_query E q ch tr
    = (Ok (mk_QueryAnalysisResult
             (PBool (any_word_in ["need"; "require"; "yes"; "true"] (lower text)))
             q (PStr text) (PFloat (6 # 10))), tr').
Proof.
  intros Hmodel Hgateway Hbrace Hjson.
  assert (Hrfind : rfind text "}" = -1) by (apply rfind_from_absent, Hbrace).
  unfold analyze_query, try_except, try_except_json, bind, lift, ret, _call_llm, call.
  fold (_get_task_model_id E). unfold _get_task_model_id. rewrite Hmodel, Hgateway.
  cbn -[find rfind slice lower any_word_in with_history analysis_system_prompt].
  rewrite Hrfind.
  destruct (find text "{" =? -1) eqn:Hfind.
  - cbn -[lower any_word_in with_history analysis_system_prompt].
    eexists. reflexivity.
  - apply Z.eqb_neq in Hfind.
    assert (Hslice : slice text (find text "{") 0 = EmptyString).
    { unfold slice. destruct (find_from_range "{" text 0) as [H | H]; [lia | | ].
      - now elim Hfind.
      - unfold find. replace (Z.to_nat (0 - find_from "{" text 0)) with 0%nat by lia.
        apply substring_zero. }
    cbn -[find slice lower any_word_in with_history analysis_system_prompt].
    rewrite Hslice. unfold loads. rewrite Hjson.
    cbn -[lower any_word_in with_history analysis_system_prompt].
    eexists. reflexivity.
Qed.

Lemma X18_analysis_without_closing_brace_falls_back_witness :
  exists tr',
    analyze_query (free_text_env "yes {unfinished") (PStr "q") [] []
    = (Ok (mk_QueryAnalysisResult (PBool true) (PStr "q") (PStr "yes {unfinished")
             (PFloat (6 # 10))), tr').
Proof.
  apply (X18_analysis_without_closing_brace_falls_back (free_text_env "yes {unfinished")
           (PStr "q") [] [] "task" "yes {unfinished"); reflexivity.
Defined.
